(** * ble-scanner-and-feeder: advertisement parser, vendor decoders, aggregator

    A shallow embedding of [ble-scanner-and-feeder.py] and the properties
    its specification states about it.

    Conventions of the embedding.
    - A Python [bytes] object is a [list byte]; an element read out of it is
      a Python [int], embedded as a [Z] in [0, 255].
    - Python [int]s are [Z]; [len(...)] results and buffer offsets, which are
      never negative in this program, are [nat].
    - Python [float]s that hold decoded measurements are IEEE binary64
      values, embedded as the kernel's primitive [float] with the same
      operations, so the rounding of the source is the rounding of the model.
    - The readings of [time.monotonic()] are embedded as exact rationals
      [Q]: the aggregator only subtracts and compares them.
    - A Python [dict] whose iteration order is observable (the metric
      batches and the accrued data) is an insertion-ordered association
      list; the two lookup tables of the parser, which are only indexed,
      are [gmap]s.
    - A raised exception is a value of [outcome]; nothing is caught unless
      the source has an [except] clause for it. *)

From Stdlib Require Import ZArith QArith Floats String Ascii List Lia Lqa.
From Stdlib.Strings Require Import Byte.
From stdpp Require Import gmap list strings.

Set Warnings "-inexact-float".

Local Open Scope Z_scope.

(** ** Exceptions and outcomes *)

(** The exception classes that the program can raise or names in an
    [except] clause. [struct.error] derives from [Exception] directly;
    [UnicodeDecodeError] and [binascii.Error] derive from [ValueError]. *)
Inductive exn : Set :=
  | StructError
  | TypeError
  | IndexError
  | ValueError
  | UnicodeDecodeError
  | BinasciiError.

(** What running a piece of the program gives: a value, a raised
    exception, or (for the one [while] loop, run with a bound on its
    iterations) the bound being reached. *)
Inductive outcome (A : Type) : Type :=
  | Returns (a : A)
  | Raises (e : exn)
  | OutOfFuel.

Arguments Returns {A} a.
Arguments Raises {A} e.
Arguments OutOfFuel {A}.

Definition bind {A B : Type} (m : outcome A) (k : A -> outcome B) : outcome B :=
  match m with
  | Returns a => k a
  | Raises e => Raises e
  | OutOfFuel => OutOfFuel
  end.

Notation "'do' x <- m ;; k" := (bind m (fun x => k))
  (at level 10, x name, m at level 99, k at level 200,
   format "'[v' 'do'  x  <-  m  ;;  '/' k ']'").

(** ** Bytes *)

(** [data[i]] for a [bytes] object: the element as an [int]. *)
Definition byte_val (b : byte) : Z := Z.of_N (Byte.to_N b).

(** [data[lo:hi]] for non-negative bounds: Python clamps both ends to the
    length of the sequence. *)
Definition slice {A : Type} (data : list A) (lo hi : nat) : list A :=
  take (hi - lo)%nat (drop lo data).

(** [data[lo:]] for a non-negative bound. *)
Definition slice_from {A : Type} (data : list A) (lo : nat) : list A :=
  drop lo data.

(** ** The [struct] module, as far as the program uses it *)

Module Struct.

(** Byte order of a format string: [<] or [>] (standard sizes, no
    padding). *)
Inductive endian : Set := Little | Big.

(** Format characters: [B] unsigned char, [H] unsigned short, [h]
    short. *)
Inductive code : Set := fmt_B | fmt_H | fmt_h.

Definition size (c : code) : nat :=
  match c with
  | fmt_B => 1
  | fmt_H | fmt_h => 2
  end%nat.

Definition calcsize (fmt : list code) : nat :=
  foldr (fun c n => (size c + n)%nat) 0%nat fmt.

(** The unsigned integer a run of bytes denotes, most significant byte
    first. *)
Definition uint_be (bs : list byte) : Z :=
  fold_left (fun acc b => acc * 256 + byte_val b) bs 0.

Definition uint (e : endian) (bs : list byte) : Z :=
  match e with
  | Big => uint_be bs
  | Little => uint_be (rev bs)
  end.

(** Two's complement reading of a [w]-byte unsigned value. *)
Definition to_signed (w : nat) (u : Z) : Z :=
  if 2 ^ (8 * Z.of_nat w - 1) <=? u then u - 2 ^ (8 * Z.of_nat w) else u.

Definition decode (e : endian) (c : code) (bs : list byte) : Z :=
  match c with
  | fmt_B | fmt_H => uint e bs
  | fmt_h => to_signed (size c) (uint e bs)
  end.

(** The fields of [fmt], read one after the other from the front of
    [bs]. *)
Fixpoint fields (e : endian) (fmt : list code) (bs : list byte) : list Z :=
  match fmt with
  | [] => []
  | c :: fmt' => decode e c (take (size c) bs) :: fields e fmt' (drop (size c) bs)
  end.

(** [struct.unpack_from(fmt, data, offset=offset)]: raises [struct.error]
    when fewer than [calcsize(fmt)] bytes are left at [offset]. *)
Definition unpack_from (e : endian) (fmt : list code) (data : list byte)
    (offset : nat) : outcome (list Z) :=
  if (length data - offset <? calcsize fmt)%nat
  then Raises StructError
  else Returns (fields e fmt (drop offset data)).

End Struct.

Import Struct.

(** ** Python values and dictionaries *)

(** The values the decoders put in a metric batch: [int]s and [float]s. *)
Inductive pyval : Set :=
  | PyInt (z : Z)
  | PyFloat (f : float).

(** [float(z)] for an [int] of magnitude below [2^63] (every integer the
    decoders convert is below [2^17]). *)
Definition float_of_int (z : Z) : float :=
  if z <? 0
  then PrimFloat.opp (PrimFloat.of_uint63 (Uint63.of_Z (- z)))
  else PrimFloat.of_uint63 (Uint63.of_Z z).

(** [z * f] with [z] an [int] and [f] a [float]. *)
Definition int_mul_float (z : Z) (f : float) : float :=
  PrimFloat.mul (float_of_int z) f.

(** [f / z] with [f] a [float] and [z] an [int]. *)
Definition float_div_int (f : float) (z : Z) : float :=
  PrimFloat.div f (float_of_int z).

(** [a / b], the true division of two [int]s. *)
Definition int_truediv (a b : Z) : float :=
  PrimFloat.div (float_of_int a) (float_of_int b).

(** An insertion-ordered dictionary with string keys. *)
Definition pydict (V : Type) : Type := list (string * V).

(** [k in d] and [d[k]]. *)
Fixpoint dict_get {V : Type} (k : string) (d : pydict V) : option V :=
  match d with
  | [] => None
  | (k', v') :: d' => if String.eqb k' k then Some v' else dict_get k d'
  end.

(** [d[k] = v]: an existing key keeps its place, a new key goes last. *)
Fixpoint dict_set {V : Type} (k : string) (v : V) (d : pydict V) : pydict V :=
  match d with
  | [] => [(k, v)]
  | (k', v') :: d' =>
      if String.eqb k' k then (k', v) :: d' else (k', v') :: dict_set k v d'
  end.

(** [d.update(other)]. *)
Definition dict_update {V : Type} (d other : pydict V) : pydict V :=
  fold_left (fun acc kv => dict_set kv.1 kv.2 acc) other d.

(** [d.keys()]. *)
Definition dict_keys {V : Type} (d : pydict V) : list string := d.*1.

(** ** Constants *)

Definition RUUVI_MFG_ID : Z := 1177.
Definition MIJIA_SVC_ID : Z := 0xfe95.
Definition TEMPERATURE_LABEL : string := "temperature".
Definition HUMIDITY_LABEL : string := "humidity".
Definition TX_INTERVAL : Q := 30.

(** ** The vendor payload decoders *)

(** [parse_ruuvi_mfg_data(data)]. The result is [None] where the source
    falls out of a bare [return]. *)
Definition parse_ruuvi_mfg_data (data : list byte) : outcome (option (pydict pyval)) :=
  if (length data <? 1)%nat then Returns None
  else
    let fmt := byte_val (nth 0 data x00) in
    if (fmt =? 5) && (15 <=? length data)%nat then
      do thp <- unpack_from Big [fmt_h; fmt_H; fmt_H] data 1 ;;
      match thp with
      | [temperature; humidity; atm_pressure] =>
          do pw <- unpack_from Big [fmt_H] data 13 ;;
          match pw with
          | [power_info] =>
              let battery_voltage_mv := Z.shiftr power_info 5 in
              let tx_power := Z.land power_info 0x1F in
              Returns (Some
                [ (TEMPERATURE_LABEL, PyFloat (int_mul_float temperature 0.005));
                  (HUMIDITY_LABEL, PyFloat (int_mul_float humidity 0.0025));
                  ("atmospheric_pressure"%string,
                    PyFloat (float_div_int (float_of_int (atm_pressure + 50000)) 100));
                  ("battery_voltage"%string,
                    PyFloat (float_div_int (float_of_int (battery_voltage_mv + 1600)) 1000));
                  ("tx_power"%string, PyInt (-40 + 2 * tx_power)) ])
          | _ => Raises ValueError
          end
      | _ => Raises ValueError
      end
    else Returns (Some []).

(** [parse_mijia_sensor_data(data)]. *)
Definition parse_mijia_sensor_data (data : list byte) : outcome (option (pydict pyval)) :=
  if (length data <? 12)%nat then Returns None
  else
    let ret : pydict pyval := [] in
    do dt <- unpack_from Little [fmt_B] data 11 ;;
    match dt with
    | [data_type] =>
        if data_type =? 0x0D then
          do th <- unpack_from Little [fmt_H; fmt_H] data 14 ;;
          match th with
          | [temperature; humidity] =>
              let ret := dict_set TEMPERATURE_LABEL (PyFloat (int_truediv temperature 10)) ret in
              let ret := dict_set HUMIDITY_LABEL (PyFloat (int_truediv humidity 10)) ret in
              Returns (Some ret)
          | _ => Raises ValueError
          end
        else if data_type =? 0x06 then
          do hu <- unpack_from Little [fmt_H] data 14 ;;
          match hu with
          | [humidity] =>
              Returns (Some (dict_set HUMIDITY_LABEL (PyFloat (int_truediv humidity 10)) ret))
          | _ => Raises ValueError
          end
        else if data_type =? 0x04 then
          do te <- unpack_from Little [fmt_H] data 14 ;;
          match te with
          | [temperature] =>
              Returns (Some (dict_set TEMPERATURE_LABEL (PyFloat (int_truediv temperature 10)) ret))
          | _ => Raises ValueError
          end
        else if data_type =? 0x0A then
          do ba <- unpack_from Little [fmt_B] data 14 ;;
          match ba with
          | [battery] =>
              Returns (Some (dict_set "battery_percent"%string (PyInt battery) ret))
          | _ => Raises ValueError
          end
        else Returns (Some ret)
    | _ => Raises ValueError
    end.

(** ** The advertisement parser *)

(** An entry of [self.ad_elements]: [{ 'ad_type': ..., 'ad_data': ... }]. *)
Record ad_element : Type := mk_ad_element {
  ad_type : Z;
  ad_data : list byte
}.

(** The attributes of a [BleAdvParser] object. *)
Record BleAdvParser : Type := mk_BleAdvParser {
  mfg_data : gmap Z (list byte);
  service_data : gmap Z (list byte);
  ad_elements : list ad_element
}.

(** [BleAdvParser()]: [__init__] calls [clear]. *)
Definition BleAdvParser_new : BleAdvParser :=
  mk_BleAdvParser ∅ ∅ [].

(** The body of the [for] loop of [parse_ad_elements], for one element. *)
Definition parse_ad_element (self : BleAdvParser) (e : ad_element) : outcome BleAdvParser :=
  let ad_type := ad_type e in
  let ad_data := ad_data e in
  if ad_type =? 255 then
    do r <- unpack_from Little [fmt_H] ad_data 0 ;;
    match r with
    | [mfg_id] =>
        Returns (mk_BleAdvParser (<[mfg_id := slice_from ad_data 2]> (mfg_data self))
                                 (service_data self) (ad_elements self))
    | _ => Raises ValueError
    end
  else if ad_type =? 0x16 then
    do r <- unpack_from Little [fmt_H] ad_data 0 ;;
    match r with
    | [service_uid] =>
        Returns (mk_BleAdvParser (mfg_data self)
                                 (<[service_uid := slice_from ad_data 2]> (service_data self))
                                 (ad_elements self))
    | _ => Raises ValueError
    end
  else Returns self.

(** The [for] loop of [parse_ad_elements] over the elements still to
    visit. Assigning to [mfg_data] or [service_data] leaves
    [self.ad_elements], the list being iterated, as it is. *)
Fixpoint parse_ad_elements_from (es : list ad_element) (self : BleAdvParser)
    : outcome BleAdvParser :=
  match es with
  | [] => Returns self
  | e :: es' =>
      do self' <- parse_ad_element self e ;;
      parse_ad_elements_from es' self'
  end.

(** [self.parse_ad_elements()]. *)
Definition parse_ad_elements (self : BleAdvParser) : outcome BleAdvParser :=
  parse_ad_elements_from (ad_elements self) self.

(** One pass through the body of the [while] loop of [parse]: the new
    value of [offset] and the parser after it. *)
Definition parse_iteration (data : list byte) (offset : nat) (self : BleAdvParser)
    : outcome (nat * BleAdvParser) :=
  do r <- unpack_from Little [fmt_B; fmt_B] data offset ;;
  match r with
  | [length; ad_type] =>
      let self' :=
        if 0 <? length - 1 then
          let ad_length := length - 1 in
          let ad_data := slice data (offset + 2) (offset + 2 + Z.to_nat ad_length) in
          mk_BleAdvParser (mfg_data self) (service_data self)
                          (ad_elements self ++ [mk_ad_element ad_type ad_data])
        else self in
      Returns ((offset + Z.to_nat (length + 1))%nat, self')
  | _ => Raises ValueError
  end.

(** The [while offset < len(data)] loop of [parse], for at most [fuel]
    passes through its body. *)
Fixpoint parse_loop (fuel : nat) (data : list byte) (offset : nat) (self : BleAdvParser)
    : outcome BleAdvParser :=
  if (offset <? length data)%nat then
    match fuel with
    | O => OutOfFuel
    | S fuel' =>
        do st <- parse_iteration data offset self ;;
        parse_loop fuel' data st.1 st.2
    end
  else Returns self.

(** [self.parse(data)]. The loop is given [len(data)] passes, which it
    never uses up ([parse_loop_fuel] below). *)
Definition parse (self : BleAdvParser) (data : list byte) : outcome BleAdvParser :=
  do self' <- parse_loop (length data) data 0 self ;;
  parse_ad_elements self'.

(** ** The aggregator *)

(** [c.casefold()] for an ASCII character: the upper-case letters go to
    lower case. Addresses are ASCII: the configured ones are literals, the
    received ones are decoded from the serial line with [encoding='ascii']. *)
Definition casefold_ascii (c : ascii) : ascii :=
  let n := nat_of_ascii c in
  if ((65 <=? n) && (n <=? 90))%nat then ascii_of_nat (n + 32) else c.

(** [s.casefold()] for an ASCII string. *)
Fixpoint casefold (s : string) : string :=
  match s with
  | EmptyString => EmptyString
  | String c s' => String (casefold_ascii c) (casefold s')
  end.

(** An entry of [SENSOR_MAP]. *)
Record sensor : Type := mk_sensor {
  last_sent : Q;
  accrued_data : pydict pyval;
  address : string;
  label : string;
  tags : pydict string
}.

(** An entry of [json_body]:
    [{ 'measurement': ..., 'tags': ..., 'fields': { 'value': ... } }]. *)
Record point : Type := mk_point {
  measurement : string;
  point_tags : pydict string;
  fields_value : pyval
}.

(** The list [json_body] that the [for datakey in data.keys()] loop builds. *)
Definition json_body (data : pydict pyval) (tags : pydict string) : list point :=
  omap (fun datakey => mk_point datakey tags <$> dict_get datakey data) (dict_keys data).

(** The body of the [for sensor in SENSOR_MAP] loop of [update_sensor_data],
    for one sensor: the sensor after it, the value of the variable [data]
    after it (a flush rebinds it), and the batches handed to
    [send_sensor_data]. [now] is what [time.monotonic()] returns. *)
Definition update_sensor (addr : string) (now : Q) (s : sensor) (data : pydict pyval)
    : sensor * pydict pyval * list (list point) :=
  if String.eqb (casefold (address s)) (casefold addr) then
    let since_last := (now - last_sent s)%Q in
    let accrued := dict_update (accrued_data s) data in
    if Qle_bool TX_INTERVAL since_last then
      let data := accrued in
      (mk_sensor now [] (address s) (label s) (tags s), data, [json_body data (tags s)])
    else
      (mk_sensor (last_sent s) accrued (address s) (label s) (tags s), data, [])
  else (s, data, []).

(** The [for sensor in SENSOR_MAP] loop over the sensors still to visit. *)
Fixpoint update_loop (sensors : list sensor) (addr : string) (data : pydict pyval) (now : Q)
    : list sensor * list (list point) :=
  match sensors with
  | [] => ([], [])
  | s :: rest =>
      let '(s', data', out) := update_sensor addr now s data in
      let '(rest', outs) := update_loop rest addr data' now in
      (s' :: rest', out ++ outs)
  end.

(** [update_sensor_data(address, data)] on the global [SENSOR_MAP], with
    the clock reading [now]: the sensors after the call and the batches it
    handed to [send_sensor_data], in order. *)
Definition update_sensor_data (SENSOR_MAP : list sensor) (addr : string)
    (data : pydict pyval) (now : Q) : list sensor * list (list point) :=
  update_loop SENSOR_MAP addr data now.

(** The [SENSOR_MAP] of the source. *)
Definition SENSOR_MAP_initial : list sensor :=
  [ mk_sensor 0 [] "E6:99:94:26:C5:C3" "{}"
      [("room", "office"); ("location", "window")]%string;
    mk_sensor 0 [] "C1:2F:56:FB:6A:0A" "{}"
      [("room", "bedroom"); ("location", "window")]%string;
    mk_sensor 0 [] "F6:8C:F2:8D:6E:A3" "{}"
      [("room", "living"); ("location", "tv")]%string;
    mk_sensor 0 [] "4C:65:A8:D4:03:E3" "{}"
      [("room", "hallway"); ("location", "kitchen")]%string ].

(** ** The main loop *)

(** What the program holds between two lines of input: the sensors and
    the batches sent so far. *)
Record world : Type := mk_world {
  SENSOR_MAP : list sensor;
  sent : list (list point)
}.

(** A line of input after [split(',')], [float(items[2])] and
    [binascii.unhexlify(items[5])], with the clock readings of the two
    calls of [update_sensor_data] that the line can lead to. *)
Record record : Type := mk_record {
  rec_address : string;
  rec_rssi : float;
  rec_data : list byte;
  rec_now_ruuvi : Q;
  rec_now_mijia : Q
}.

(** [data['rssi'] = rssi] on what a decoder returned: [None] supports no
    item assignment. *)
Definition set_rssi (data : option (pydict pyval)) (rssi : float) : outcome (pydict pyval) :=
  match data with
  | None => Raises TypeError
  | Some d => Returns (dict_set "rssi" (PyFloat rssi) d)
  end.

(** One of the two [if ... in ...:] blocks of [main]: decode the payload
    found under the identifier, if any, and feed the aggregator. *)
Definition feed (decoder : list byte -> outcome (option (pydict pyval)))
    (payload : option (list byte)) (addr : string) (rssi : float) (now : Q) (w : world)
    : world * outcome unit :=
  match payload with
  | None => (w, Returns tt)
  | Some bytes =>
      match (do data <- decoder bytes ;; set_rssi data rssi) with
      | Returns data =>
          let '(sensors, out) := update_sensor_data (SENSOR_MAP w) addr data now in
          (mk_world sensors (sent w ++ out), Returns tt)
      | Raises e => (w, Raises e)
      | OutOfFuel => (w, OutOfFuel)
      end
  end.

(** The body of the [try] block of [main], from [p = BleAdvParser()] on. *)
Definition main_body (w : world) (r : record) : world * outcome unit :=
  match parse BleAdvParser_new (rec_data r) with
  | Returns p =>
      let '(w1, r1) :=
        feed parse_ruuvi_mfg_data (mfg_data p !! RUUVI_MFG_ID)
             (rec_address r) (rec_rssi r) (rec_now_ruuvi r) w in
      match r1 with
      | Returns _ =>
          feed parse_mijia_sensor_data (service_data p !! MIJIA_SVC_ID)
               (rec_address r) (rec_rssi r) (rec_now_mijia r) w1
      | _ => (w1, r1)
      end
  | Raises e => (w, Raises e)
  | OutOfFuel => (w, OutOfFuel)
  end.

(** The [except] clauses of [main]: [UnicodeDecodeError], [IndexError],
    [binascii.Error] and [ValueError], each handled with [pass]. *)
Definition main_catches (e : exn) : bool :=
  match e with
  | UnicodeDecodeError | IndexError | BinasciiError | ValueError => true
  | StructError | TypeError => false
  end.

(** One pass through the [while True] loop of [main]: the [try] block and
    its handlers. *)
Definition main_iteration (w : world) (r : record) : world * outcome unit :=
  let '(w', res) := main_body w r in
  match res with
  | Raises e => if main_catches e then (w', Returns tt) else (w', Raises e)
  | _ => (w', res)
  end.

(** The [while True] loop of [main] over the records that arrive: an
    exception that no handler catches ends it. *)
Fixpoint main_loop (w : world) (records : list record) : world * outcome unit :=
  match records with
  | [] => (w, Returns tt)
  | r :: records' =>
      let '(w', res) := main_iteration w r in
      match res with
      | Returns _ => main_loop w' records'
      | _ => (w', res)
      end
  end.

(** ** Buffers made of complete records *)

(** [self.ad_elements.append(e)]. *)
Definition append_element (self : BleAdvParser) (e : ad_element) : BleAdvParser :=
  mk_BleAdvParser (mfg_data self) (service_data self) (ad_elements self ++ [e]).

(** [self.ad_elements.extend(es)]: a run of appends. *)
Definition extend_elements (self : BleAdvParser) (es : list ad_element) : BleAdvParser :=
  mk_BleAdvParser (mfg_data self) (service_data self) (ad_elements self ++ es).

(** A record of an advertisement as it is on the air: the length byte,
    the type byte, the payload. *)
Record tlv : Type := mk_tlv {
  tlv_length : byte;
  tlv_type : byte;
  tlv_payload : list byte
}.

(** A record is well formed when its length byte counts the type byte and
    the payload. *)
Definition tlv_wf (r : tlv) : Prop :=
  byte_val (tlv_length r) = Z.of_nat (1 + length (tlv_payload r)).

Definition tlv_bytes (r : tlv) : list byte :=
  tlv_length r :: tlv_type r :: tlv_payload r.

(** The buffer that a sequence of records makes. *)
Definition encode (rs : list tlv) : list byte := flat_map tlv_bytes rs.

(** The element that the loop of [parse] keeps for a record: none when
    the payload is empty. *)
Definition captured_one (r : tlv) : list ad_element :=
  match tlv_payload r with
  | [] => []
  | _ :: _ => [mk_ad_element (byte_val (tlv_type r)) (tlv_payload r)]
  end.

Definition captured (rs : list tlv) : list ad_element := flat_map captured_one rs.

(** The table entry that [parse_ad_elements] makes of a record of type
    [0xFF] or [0x16]: the first two payload bytes, little-endian, are the
    key and the rest is the value. *)
Definition put_entry (table : gmap Z (list byte)) (r : tlv) : gmap Z (list byte) :=
  <[ uint Little (take 2 (tlv_payload r)) := drop 2 (tlv_payload r) ]> table.

(** A record of type [0xFF] or [0x16] carries an identifier when its
    payload has at least two bytes. *)
Definition has_identifier (r : tlv) : Prop :=
  tlv_type r = xff \/ tlv_type r = x16 -> (2 <= length (tlv_payload r))%nat.

(** A batch has the value [v], and no other, for the measurement [k]. *)
Definition only_value (k : string) (tg : pydict string) (v : pyval) (batch : list point) : Prop :=
  mk_point k tg v ∈ batch
  /\ forall p : point, p ∈ batch -> measurement p = k -> p = mk_point k tg v.

#[global] Instance byte_eq_dec : EqDecision byte := Byte.byte_eq_dec.

(** ** Sample inputs *)

Definition ruuvi_sample : list byte :=
  [x05; x0f; xfa; x36; xc9; xc6; xda; xff; xe8; x00; x18; x04; x00; xb5; xf6].

Definition mijia_sample : list byte :=
  [x50; x20; xaa; x01; x15; xe3; x03; xd4; xa8; x65; x4c; x0d; x10; x04; xc9; x00; xc5; x01].

(** An advertisement that carries one service-data element for the Mijia
    identifier whose payload is [mijia_sample] without its last byte:
    sub-type [0x0D], 17 bytes. *)
Definition mijia_short_adv : list byte :=
  [x14; x16; x95; xfe] ++ take 17 mijia_sample.

Definition mijia_short_record : record :=
  mk_record "4C:65:A8:D4:03:E3" (-70)%float mijia_short_adv 100 100.

(** [|x - y| <= 1e-9] on floats. *)
Definition within_1e9 (x y : float) : bool :=
  PrimFloat.leb (PrimFloat.abs (PrimFloat.sub x y)) 1e-9.

(** Two records whose advertisements are short: [01 01 05] ends with a
    byte that is alone at the cursor, [02 FF 99] has an element of type
    [0xFF] with one payload byte. *)
Definition trailing_byte_record : record :=
  mk_record "E6:99:94:26:C5:C3" (-70)%float [x01; x01; x05] 100 100.

Definition short_element_record : record :=
  mk_record "E6:99:94:26:C5:C3" (-70)%float [x02; xff; x99] 100 100.

(** ** The aggregator with the clock read where the source reads it *)

(** The [for sensor in SENSOR_MAP] loop over the sensors still to visit,
    with [time.monotonic()] called where the source calls it: once for
    each sensor that matches, inside the [if]. [clock k] is what the
    [k]-th call returns and [reads] counts the calls made so far; the
    result has the count after the loop. *)
Fixpoint update_loop_clocked (sensors : list sensor) (addr : string) (data : pydict pyval)
    (clock : nat -> Q) (reads : nat) : list sensor * list (list point) * nat :=
  match sensors with
  | [] => ([], [], reads)
  | s :: rest =>
      if String.eqb (casefold (address s)) (casefold addr) then
        let now := clock reads in
        let '(s', data', out) := update_sensor addr now s data in
        let '(rest', outs, reads') := update_loop_clocked rest addr data' clock (S reads) in
        (s' :: rest', out ++ outs, reads')
      else
        let '(rest', outs, reads') := update_loop_clocked rest addr data clock reads in
        (s :: rest', outs, reads')
  end.

(** ** Value ranges *)

(** [lo <= f <= hi] on floats. *)
Definition in_range (lo hi f : float) : bool :=
  PrimFloat.leb lo f && PrimFloat.leb f hi.

(** [P] holds of the [n] integers from [lo] on. *)
Definition forall_range (P : Z -> bool) (lo : Z) (n : N) : bool :=
  N.recursion true (fun i acc => P (lo + Z.of_N i) && acc) n.

(** The integers a format character can give. *)
Definition code_min (c : code) : Z :=
  match c with
  | fmt_B | fmt_H => 0
  | fmt_h => -32768
  end.

Definition code_max (c : code) : Z :=
  match c with
  | fmt_B => 255
  | fmt_H => 65535
  | fmt_h => 32767
  end.

(** The number of bytes a Mijia payload must have for the decoder to read
    the fields of its sub-type, the byte at offset 11. *)
Definition mijia_needed (sub_type : byte) : nat :=
  match sub_type with
  | x0d => 18
  | x06 | x04 => 16
  | x0a => 15
  | _ => 12
  end.

(** What a dictionary of the Mijia decoder may hold: a temperature or a
    humidity in [0, 6553.5], or a battery level in [0, 255]. *)
Definition mijia_values_ok (d : pydict pyval) : Prop :=
  forall (k : string) (v : pyval),
    dict_get k d = Some v ->
    ((k = "temperature"%string \/ k = "humidity"%string)
     /\ exists f : float, v = PyFloat f /\ in_range 0 6553.5 f = true)
    \/ (k = "battery_percent"%string
        /\ exists z : Z, v = PyInt z /\ 0 <= z <= 255).

(** The identifier of a record of type [0xFF] or [0x16]: its first two
    payload bytes, little-endian. *)
Definition tlv_identifier (r : tlv) : Z := uint Little (take 2 (tlv_payload r)).

(** The records [parse_ad_elements] looks at. *)
Definition tlv_relevant (r : tlv) : Prop := tlv_type r = xff \/ tlv_type r = x16.

(** Bounds on a kept element: a type byte and at most 254 data bytes. *)
Definition element_ok (e : ad_element) : Prop :=
  0 <= ad_type e <= 255 /\ (length (ad_data e) <= 254)%nat.

(** Bounds on a table: 16-bit keys and at most 252 bytes under each. *)
Definition table_ok (table : gmap Z (list byte)) : Prop :=
  map_Forall (fun k v => 0 <= k <= 65535 /\ (length v <= 252)%nat) table.

(** ** Reading a line *)

(** [c.isspace()] for an ASCII character: tab to carriage return, the
    four separators [0x1C] to [0x1F], and the space. *)
Definition is_space (c : ascii) : bool :=
  let n := nat_of_ascii c in
  ((9 <=? n) && (n <=? 13) || (28 <=? n) && (n <=? 32))%nat.

(** [s.rstrip()]: the string without its trailing whitespace. *)
Fixpoint rstrip (s : string) : string :=
  match s with
  | EmptyString => EmptyString
  | String c s' =>
      match rstrip s' with
      | EmptyString => if is_space c then EmptyString else String c EmptyString
      | t => String c t
      end
  end.

(** [s.split(sep)] for a separator of one character. *)
Fixpoint split (sep : ascii) (s : string) : list string :=
  match s with
  | EmptyString => [EmptyString]
  | String c s' =>
      if Ascii.eqb c sep then EmptyString :: split sep s'
      else
        match split sep s' with
        | [] => [String c EmptyString]
        | item :: items => String c item :: items
        end
  end.

(** [items[i]] for a list and a non-negative index. *)
Definition list_item {A : Type} (items : list A) (i : nat) : outcome A :=
  match items !! i with
  | Some x => Returns x
  | None => Raises IndexError
  end.

(** The value of a hexadecimal digit, of either case. *)
Definition hex_value (c : ascii) : option N :=
  let n := N_of_ascii c in
  if ((48 <=? n) && (n <=? 57))%N then Some (n - 48)%N
  else if ((97 <=? n) && (n <=? 102))%N then Some (n - 87)%N
  else if ((65 <=? n) && (n <=? 70))%N then Some (n - 55)%N
  else None.

(** [binascii.unhexlify(s)] for an ASCII string: [binascii.Error] on an
    odd number of characters and on a character that is no hexadecimal
    digit. *)
Fixpoint unhexlify (s : string) : outcome (list byte) :=
  match s with
  | EmptyString => Returns []
  | String _ EmptyString => Raises BinasciiError
  | String hi (String lo s') =>
      match hex_value hi, hex_value lo with
      | Some h, Some l =>
          do rest <- unhexlify s' ;;
          Returns (byte_of_ascii (ascii_of_N (16 * h + l)) :: rest)
      | _, _ => Raises BinasciiError
      end
  end.

(** [float(text)] on a string: a float, or [ValueError]. The conversion
    itself is a parameter of the model. *)
Definition float_of_text (py_float : string -> option float) (text : string) : outcome float :=
  match py_float text with
  | Some f => Returns f
  | None => Raises ValueError
  end.

(** The start of the [try] block of [main], from [line.rstrip()] to
    [binascii.unhexlify(adv_data)]: the record that the rest of the block
    works on. *)
Definition line_record (py_float : string -> option float) (line : string)
    (now_ruuvi now_mijia : Q) : outcome record :=
  let line := rstrip line in
  let items := split "," line in
  do address <- list_item items 0 ;;
  do rssi_text <- list_item items 2 ;;
  do rssi <- float_of_text py_float rssi_text ;;
  do adv_data <- list_item items 5 ;;
  do data <- unhexlify adv_data ;;
  Returns (mk_record address rssi data now_ruuvi now_mijia).

(** The whole [try] block of [main] on a line that was read. *)
Definition main_line_body (py_float : string -> option float) (w : world) (line : string)
    (now_ruuvi now_mijia : Q) : world * outcome unit :=
  match line_record py_float line now_ruuvi now_mijia with
  | Returns r => main_body w r
  | Raises e => (w, Raises e)
  | OutOfFuel => (w, OutOfFuel)
  end.

(** One pass through the [while True] loop of [main] on a line that was
    read: the [try] block and its handlers. *)
Definition main_line (py_float : string -> option float) (w : world) (line : string)
    (now_ruuvi now_mijia : Q) : world * outcome unit :=
  let '(w', res) := main_line_body py_float w line now_ruuvi now_mijia in
  match res with
  | Raises e => if main_catches e then (w', Returns tt) else (w', Raises e)
  | _ => (w', res)
  end.

(** The lower-case hexadecimal digit of a value below 16. *)
Definition hex_digit (n : N) : ascii :=
  ascii_of_N (if (n <? 10)%N then 48 + n else 87 + n).

(** The text that the scanner sends for a buffer: two lower-case
    hexadecimal digits per byte. *)
Fixpoint hexlify (bs : list byte) : string :=
  match bs with
  | [] => EmptyString
  | b :: bs' =>
      String (hex_digit (Byte.to_N b / 16))
        (String (hex_digit (Byte.to_N b mod 16)) (hexlify bs'))
  end.

(** Every character of a string passes a test. *)
Fixpoint all_chars (P : ascii -> bool) (s : string) : bool :=
  match s with
  | EmptyString => true
  | String c s' => P c && all_chars P s'
  end.

(** A field of a line: a string without a comma. *)
Definition no_comma (s : string) : bool :=
  all_chars (fun c => negb (Ascii.eqb c ",")) s.

(** * Properties *)

(** ** The Ruuvi decoder *)

Lemma byte_val_5 (b : byte) : byte_val b = 5 -> b = x05.
Proof. destruct b; first [ reflexivity | discriminate ]. Qed.

(** C4: decoding the format-5 sample gives temperature 20.45, humidity
    35.0625, atmospheric pressure 1009.06, battery voltage 3.055 and tx
    power 4, each within 1e-9 (indeed each float is the double nearest to
    the decimal); the power field at bytes 13 and 14 is read big-endian,
    its upper eleven bits give the battery voltage and its lower five the
    tx power. *)
Theorem parse_ruuvi_sample :
  exists t h p b raw,
    parse_ruuvi_mfg_data ruuvi_sample =
      Returns (Some [ ("temperature"%string, PyFloat t);
                      ("humidity"%string, PyFloat h);
                      ("atmospheric_pressure"%string, PyFloat p);
                      ("battery_voltage"%string, PyFloat b);
                      ("tx_power"%string, PyInt 4) ])
    /\ within_1e9 t 20.45 = true /\ t = 20.45%float
    /\ within_1e9 h 35.0625 = true /\ h = 35.0625%float
    /\ within_1e9 p 1009.06 = true /\ p = 1009.06%float
    /\ within_1e9 b 3.055 = true /\ b = 3.055%float
    /\ unpack_from Big [fmt_H] ruuvi_sample 13 = Returns [raw]
    /\ raw = 0xB5 * 256 + 0xF6
    /\ b = float_div_int (float_of_int (Z.shiftr raw 5 + 1600)) 1000
    /\ 4 = -40 + 2 * Z.land raw 0x1F.
Proof.
  exists 20.45%float, 35.0625%float, 1009.06%float, 3.055%float, 46582.
  repeat split; vm_compute; reflexivity.
Qed.

(** C6: a non-empty payload whose first byte is not 5, and a payload whose
    first byte is 5 but which has fewer than 15 bytes, decode to the empty
    mapping, and nothing is raised. *)
Theorem parse_ruuvi_unsupported (b : byte) (rest : list byte) :
  b <> x05 \/ (length (b :: rest) < 15)%nat ->
  parse_ruuvi_mfg_data (b :: rest) = Returns (Some []).
Proof.
  intros Hcase. unfold parse_ruuvi_mfg_data.
  change (length (b :: rest) <? 1)%nat with false. cbv iota.
  change (nth 0 (b :: rest) x00) with b.
  destruct (byte_val b =? 5) eqn:Hfmt; [| reflexivity].
  destruct (15 <=? length (b :: rest))%nat eqn:Hlen; [| reflexivity].
  apply Z.eqb_eq, byte_val_5 in Hfmt. apply Nat.leb_le in Hlen.
  destruct Hcase as [Hb | Hshort]; [contradiction | lia].
Qed.

Lemma parse_ruuvi_unsupported_witness :
  parse_ruuvi_mfg_data [x03; x01; x02] = Returns (Some [])
  /\ parse_ruuvi_mfg_data (take 14 ruuvi_sample) = Returns (Some []).
Proof.
  split.
  - apply (parse_ruuvi_unsupported x03 [x01; x02]). left. discriminate.
  - apply (parse_ruuvi_unsupported x05 (take 13 (tail ruuvi_sample))).
    right. simpl. lia.
Defined.

(** The decoder reads nothing beyond the first 15 bytes. *)
Lemma parse_ruuvi_take_15 (data : list byte) :
  (15 <= length data)%nat ->
  parse_ruuvi_mfg_data data = parse_ruuvi_mfg_data (take 15 data).
Proof.
  intros Hlen.
  do 15 (destruct data as [| ? data]; [simpl in Hlen; lia |]).
  reflexivity.
Qed.

(** C10: two payloads of at least 15 bytes that agree on bytes 0 to 14
    decode to the same result. *)
Theorem parse_ruuvi_first_15 (d1 d2 : list byte) :
  (15 <= length d1)%nat -> (15 <= length d2)%nat ->
  take 15 d1 = take 15 d2 ->
  parse_ruuvi_mfg_data d1 = parse_ruuvi_mfg_data d2.
Proof.
  intros H1 H2 Heq.
  rewrite (parse_ruuvi_take_15 d1 H1), (parse_ruuvi_take_15 d2 H2), Heq.
  reflexivity.
Qed.

Lemma parse_ruuvi_first_15_witness :
  parse_ruuvi_mfg_data (ruuvi_sample ++ [x2d; x0f])
  = parse_ruuvi_mfg_data (ruuvi_sample ++ [xe6; x99; x94]).
Proof.
  apply (parse_ruuvi_first_15 (ruuvi_sample ++ [x2d; x0f]) (ruuvi_sample ++ [xe6; x99; x94])).
  - simpl. lia.
  - simpl. lia.
  - reflexivity.
Defined.

(** ** The Mijia decoder under the main loop *)

(** Every Mijia payload that passes the length test of the decoder and
    whose sub-type asks for more bytes than are left at offset 14 makes
    the decoder raise [struct.error]. *)
Lemma parse_mijia_short_raises (data : list byte) :
  (12 <= length data)%nat ->
  (nth 11 data x00 = x0d /\ (length data < 18)%nat)
  \/ ((nth 11 data x00 = x06 \/ nth 11 data x00 = x04) /\ (length data < 16)%nat)
  \/ (nth 11 data x00 = x0a /\ (length data < 15)%nat) ->
  parse_mijia_sensor_data data = Raises StructError.
Proof.
  intros Hlen Hcase.
  do 12 (destruct data as [| ? data]; [simpl in Hlen; lia |]).
  cbn [nth] in Hcase.
  destruct Hcase as [[-> Hs] | [[[-> | ->] Hs] | [-> Hs]]];
    repeat (destruct data as [| ? data]; [reflexivity |]);
    simpl in Hs; lia.
Qed.

(** C2: a Mijia payload of 17 bytes with sub-type [0x0D] passes the length
    test of the decoder, the read of two 16-bit fields at offset 14 raises
    [struct.error], no handler of the main loop catches it, and the loop
    ends there: the records that follow are not processed. *)
Theorem mijia_short_payload_propagates :
  (12 <= length (take 17 mijia_sample))%nat
  /\ nth 11 (take 17 mijia_sample) x00 = x0d
  /\ parse_mijia_sensor_data (take 17 mijia_sample) = Raises StructError
  /\ main_catches StructError = false
  /\ main_iteration (mk_world SENSOR_MAP_initial []) mijia_short_record
     = (mk_world SENSOR_MAP_initial [], Raises StructError)
  /\ forall later : list record,
       main_loop (mk_world SENSOR_MAP_initial []) (mijia_short_record :: later)
       = (mk_world SENSOR_MAP_initial [], Raises StructError).
Proof.
  assert (Hiter : main_iteration (mk_world SENSOR_MAP_initial []) mijia_short_record
                  = (mk_world SENSOR_MAP_initial [], Raises StructError))
    by (vm_compute; reflexivity).
  split; [simpl; lia |].
  split; [reflexivity |].
  split; [vm_compute; reflexivity |].
  split; [reflexivity |].
  split; [exact Hiter |].
  intros later. cbn [main_loop]. rewrite Hiter. reflexivity.
Qed.

(** ** The aggregator: unknown devices *)

Lemma update_sensor_no_match (addr : string) (now : Q) (s : sensor) (data : pydict pyval) :
  casefold (address s) <> casefold addr ->
  update_sensor addr now s data = (s, data, []).
Proof.
  intros Hne. unfold update_sensor.
  destruct (String.eqb_spec (casefold (address s)) (casefold addr)); [contradiction | reflexivity].
Qed.

Lemma update_loop_no_match (sensors : list sensor) (addr : string)
    (data : pydict pyval) (now : Q) :
  Forall (fun s => casefold (address s) <> casefold addr) sensors ->
  update_loop sensors addr data now = (sensors, []).
Proof.
  induction 1 as [| s rest Hs _ IH]; [reflexivity |].
  cbn [update_loop]. rewrite (update_sensor_no_match _ _ _ _ Hs), IH. reflexivity.
Qed.

(** C8: for an address that matches no configured sensor when both sides
    are case-folded, [update_sensor_data] leaves every sensor as it was
    and hands no batch to the sink. *)
Theorem update_unknown_address (sensors : list sensor) (addr : string)
    (data : pydict pyval) (now : Q) :
  Forall (fun s => casefold (address s) <> casefold addr) sensors ->
  update_sensor_data sensors addr data now = (sensors, []).
Proof. apply update_loop_no_match. Qed.

Lemma update_unknown_address_witness :
  update_sensor_data SENSOR_MAP_initial "aa:bb:cc:dd:ee:ff"
    [("temperature"%string, PyFloat 20.45)] 31
  = (SENSOR_MAP_initial, []).
Proof.
  apply (update_unknown_address SENSOR_MAP_initial "aa:bb:cc:dd:ee:ff").
  repeat constructor; discriminate.
Defined.

(** ** The advertisement parser: the cursor loop *)

Lemma byte_val_range (b : byte) : 0 <= byte_val b <= 255.
Proof.
  unfold byte_val. pose proof (Byte.to_N_bounded b). lia.
Qed.

(** The header read of the loop: it fails when fewer than two bytes are
    left at the cursor, and gives the two bytes there otherwise. *)
Lemma unpack_header (data : list byte) (offset : nat) :
  ((length data < offset + 2)%nat
   /\ unpack_from Little [fmt_B; fmt_B] data offset = Raises StructError)
  \/ (exists l t : byte,
       (offset + 2 <= length data)%nat
       /\ data !! offset = Some l /\ data !! S offset = Some t
       /\ unpack_from Little [fmt_B; fmt_B] data offset = Returns [byte_val l; byte_val t]).
Proof.
  unfold unpack_from. cbn [calcsize foldr size].
  destruct (length data - offset <? 1 + (1 + 0))%nat eqn:Hlt.
  - left. apply Nat.ltb_lt in Hlt. split; [lia | reflexivity].
  - right. apply Nat.ltb_ge in Hlt.
    pose proof (length_drop data offset) as Hlen.
    destruct (drop offset data) as [| l [| t rest]] eqn:Hdrop;
      cbn [length] in Hlen; try lia.
    exists l, t. split; [lia |].
    assert (Hl : data !! offset = Some l).
    { rewrite <- (Nat.add_0_r offset), <- lookup_drop, Hdrop. reflexivity. }
    assert (Ht : data !! S offset = Some t).
    { replace (S offset) with (offset + 1)%nat by lia.
      rewrite <- lookup_drop, Hdrop. reflexivity. }
    split; [exact Hl |]. split; [exact Ht |]. reflexivity.
Qed.

(** One pass of the loop, case by case. *)
Lemma parse_iteration_cases (data : list byte) (offset : nat) (self : BleAdvParser) :
  ((length data < offset + 2)%nat
   /\ parse_iteration data offset self = Raises StructError)
  \/ (exists l t : byte,
       (offset + 2 <= length data)%nat
       /\ data !! offset = Some l /\ data !! S offset = Some t
       /\ parse_iteration data offset self =
            Returns ((offset + Z.to_nat (byte_val l + 1))%nat,
                     if 0 <? byte_val l - 1
                     then append_element self
                            (mk_ad_element (byte_val t)
                               (slice data (offset + 2)
                                      (offset + 2 + Z.to_nat (byte_val l - 1))))
                     else self)).
Proof.
  unfold parse_iteration.
  destruct (unpack_header data offset) as [[Hshort ->] | (l & t & Hlen & Hl & Ht & ->)].
  - left. split; [assumption | reflexivity].
  - right. exists l, t.
    split; [exact Hlen |]. split; [exact Hl |]. split; [exact Ht |]. reflexivity.
Qed.

Lemma parse_loop_unfold (fuel : nat) (data : list byte) (offset : nat) (self : BleAdvParser) :
  parse_loop fuel data offset self =
    if (offset <? length data)%nat then
      match fuel with
      | O => OutOfFuel
      | S fuel' =>
          do st <- parse_iteration data offset self ;;
          parse_loop fuel' data st.1 st.2
      end
    else Returns self.
Proof. destruct fuel; reflexivity. Qed.

(** Once the cursor has reached the end of the buffer the loop is over. *)
Lemma parse_loop_done (fuel : nat) (data : list byte) (offset : nat) (self : BleAdvParser) :
  (length data <= offset)%nat ->
  parse_loop fuel data offset self = Returns self.
Proof.
  intros Hge. rewrite parse_loop_unfold.
  destruct (Nat.ltb_spec offset (length data)); [lia | reflexivity].
Qed.

(** With as many passes as there are bytes left, the loop comes to an
    end: it returns, or the header read raises [struct.error]. *)
Lemma parse_loop_total (fuel : nat) (data : list byte) :
  forall (offset : nat) (self : BleAdvParser),
    (length data - offset <= fuel)%nat ->
    (exists self', parse_loop fuel data offset self = Returns self')
    \/ parse_loop fuel data offset self = Raises StructError.
Proof.
  induction fuel as [| fuel IH]; intros offset self Hfuel.
  - left. exists self. apply parse_loop_done. lia.
  - rewrite parse_loop_unfold.
    destruct (Nat.ltb_spec offset (length data)) as [Hlt | Hge].
    + destruct (parse_iteration_cases data offset self)
        as [[_ ->] | (l & t & _ & _ & _ & ->)].
      * right. reflexivity.
      * cbn [bind fst snd]. apply IH.
        pose proof (byte_val_range l). lia.
    + left. exists self. reflexivity.
Qed.

(** More passes than needed change nothing. *)
Lemma parse_loop_fuel (fuel : nat) (data : list byte) :
  forall (fuel' offset : nat) (self : BleAdvParser),
    (length data - offset <= fuel)%nat ->
    (length data - offset <= fuel')%nat ->
    parse_loop fuel data offset self = parse_loop fuel' data offset self.
Proof.
  induction fuel as [| fuel IH]; intros fuel' offset self Hfuel Hfuel'.
  - rewrite !parse_loop_done by lia. reflexivity.
  - rewrite (parse_loop_unfold (S fuel)), (parse_loop_unfold fuel').
    destruct (Nat.ltb_spec offset (length data)) as [Hlt | Hge]; [| reflexivity].
    destruct fuel' as [| fuel']; [lia |].
    destruct (parse_iteration_cases data offset self)
      as [[_ ->] | (l & t & _ & _ & _ & ->)]; [reflexivity |].
    cbn [bind fst snd]. pose proof (byte_val_range l). apply IH; lia.
Qed.

(** The identifier read of [parse_ad_elements]. *)
Lemma unpack_identifier (bs : list byte) :
  unpack_from Little [fmt_H] bs 0 =
    if (length bs <? 2)%nat then Raises StructError
    else Returns [uint Little (take 2 bs)].
Proof.
  unfold unpack_from. rewrite Nat.sub_0_r. cbn [calcsize foldr size Nat.add].
  destruct (length bs <? 2)%nat; reflexivity.
Qed.

Lemma parse_ad_element_total (self : BleAdvParser) (e : ad_element) :
  (exists self', parse_ad_element self e = Returns self')
  \/ parse_ad_element self e = Raises StructError.
Proof.
  unfold parse_ad_element. rewrite unpack_identifier.
  destruct (ad_type e =? 255); [| destruct (ad_type e =? 22)].
  - destruct (length (ad_data e) <? 2)%nat; [right; reflexivity | left; eexists; reflexivity].
  - destruct (length (ad_data e) <? 2)%nat; [right; reflexivity | left; eexists; reflexivity].
  - left. eexists. reflexivity.
Qed.

Lemma parse_ad_elements_from_total (es : list ad_element) :
  forall self : BleAdvParser,
    (exists self', parse_ad_elements_from es self = Returns self')
    \/ parse_ad_elements_from es self = Raises StructError.
Proof.
  induction es as [| e es IH]; intros self.
  - left. exists self. reflexivity.
  - cbn [parse_ad_elements_from].
    destruct (parse_ad_element_total self e) as [[self' ->] | ->].
    + cbn [bind]. apply IH.
    + right. reflexivity.
Qed.

(** [parse] returns or raises [struct.error]. *)
Lemma parse_total (self : BleAdvParser) (data : list byte) :
  (exists self', parse self data = Returns self')
  \/ parse self data = Raises StructError.
Proof.
  unfold parse.
  destruct (parse_loop_total (length data) data 0 self) as [[self' ->] | ->]; [lia | |].
  - cbn [bind]. apply parse_ad_elements_from_total.
  - right. reflexivity.
Qed.

(** C5: [parse] comes to an end on every buffer. The passes it is given
    are never used up, and more passes give the same result; a pass that
    completes moves the cursor forward by the length byte plus one, so by
    at least one, and a length byte of zero adds no element; the loop is
    over as soon as the cursor is at or past the end of the buffer. *)
Theorem parse_terminates (self : BleAdvParser) (data : list byte) :
  parse self data <> OutOfFuel
  /\ (forall fuel : nat, (length data <= fuel)%nat ->
        parse_loop fuel data 0 self = parse_loop (length data) data 0 self)
  /\ (forall (offset : nat) (s : BleAdvParser) (offset' : nat) (s' : BleAdvParser),
        parse_iteration data offset s = Returns (offset', s') ->
        exists l : byte,
          data !! offset = Some l
          /\ offset' = (offset + Z.to_nat (byte_val l) + 1)%nat
          /\ (offset < offset')%nat
          /\ (byte_val l = 0 -> s' = s))
  /\ (forall (fuel offset : nat) (s : BleAdvParser),
        (length data <= offset)%nat -> parse_loop fuel data offset s = Returns s).
Proof.
  split; [| split; [| split]].
  - destruct (parse_total self data) as [[self' ->] | ->]; discriminate.
  - intros fuel Hfuel. apply parse_loop_fuel; lia.
  - intros offset s offset' s' Hiter.
    destruct (parse_iteration_cases data offset s)
      as [[_ Hr] | (l & t & _ & Hl & _ & Hr)]; rewrite Hr in Hiter; [discriminate |].
    injection Hiter as <- <-. pose proof (byte_val_range l).
    exists l. repeat split; [assumption | lia | lia |].
    intros ->. reflexivity.
  - intros fuel offset s. apply parse_loop_done.
Qed.

Lemma parse_terminates_witness :
  parse_loop 5 [x00; x00; x02] 0 BleAdvParser_new
  = parse_loop (length [x00; x00; x02]) [x00; x00; x02] 0 BleAdvParser_new.
Proof.
  apply (proj1 (proj2 (parse_terminates BleAdvParser_new [x00; x00; x02]))).
  simpl. lia.
Defined.

(** ** The advertisement parser on buffers made of complete records *)

Lemma extend_elements_nil (self : BleAdvParser) : extend_elements self [] = self.
Proof. destruct self. unfold extend_elements. cbn. rewrite app_nil_r. reflexivity. Qed.

Lemma length_encode (rs : list tlv) : (length rs <= length (encode rs))%nat.
Proof.
  induction rs as [| r rs IH]; [reflexivity |].
  unfold encode in *. cbn [flat_map]. unfold tlv_bytes at 1.
  rewrite length_app. cbn [length]. lia.
Qed.

(** The header read at the start of a record. *)
Lemma unpack_header_at (pre : list byte) (l t : byte) (rest : list byte) :
  unpack_from Little [fmt_B; fmt_B] (pre ++ l :: t :: rest) (length pre)
  = Returns [byte_val l; byte_val t].
Proof.
  unfold unpack_from. rewrite drop_app_length.
  assert (Hlen : (length (pre ++ l :: t :: rest) - length pre <? calcsize [fmt_B; fmt_B])%nat = false).
  { apply Nat.ltb_ge. rewrite length_app. cbn [length calcsize foldr size]. lia. }
  rewrite Hlen. reflexivity.
Qed.

(** One pass of the loop at the start of a complete record. *)
Lemma parse_iteration_record (pre rest : list byte) (r : tlv) (self : BleAdvParser) :
  tlv_wf r ->
  parse_iteration (pre ++ tlv_bytes r ++ rest) (length pre) self
  = Returns (length (pre ++ tlv_bytes r), extend_elements self (captured_one r)).
Proof.
  destruct r as [l t payload]. unfold tlv_wf, tlv_bytes. cbn [tlv_length tlv_type tlv_payload].
  intros Hwf.
  unfold parse_iteration.
  change ((l :: t :: payload) ++ rest) with (l :: t :: payload ++ rest).
  rewrite unpack_header_at. cbn [bind].
  f_equal. f_equal.
  - rewrite length_app. cbn [length] in *. lia.
  - unfold captured_one. cbn [tlv_payload tlv_type].
    destruct payload as [| b payload].
    + cbn [length] in Hwf.
      destruct (Z.ltb_spec 0 (byte_val l - 1)); [lia |].
      rewrite extend_elements_nil. reflexivity.
    + destruct (Z.ltb_spec 0 (byte_val l - 1)); [| cbn [length] in Hwf; lia].
      unfold extend_elements, append_element. cbn [mfg_data service_data ad_elements].
      do 4 f_equal. unfold slice.
      replace (length pre + 2 + Z.to_nat (byte_val l - 1) - (length pre + 2))%nat
        with (length (b :: payload)) by lia.
      rewrite drop_app_add. cbn [drop].
      change (b :: payload ++ rest) with ((b :: payload) ++ rest).
      apply take_app_length.
Qed.

(** The loop over a run of complete records: one pass per record, the
    cursor ends after the run and the records with a payload have been
    kept, in order. *)
Lemma parse_loop_records (rs : list tlv) :
  forall (pre suf : list byte) (self : BleAdvParser) (fuel : nat),
    Forall tlv_wf rs ->
    parse_loop (length rs + fuel) (pre ++ encode rs ++ suf) (length pre) self
    = parse_loop fuel (pre ++ encode rs ++ suf) (length (pre ++ encode rs))
        (extend_elements self (captured rs)).
Proof.
  induction rs as [| r rs IH]; intros pre suf self fuel Hwf.
  - cbn [encode flat_map captured length app Nat.add].
    rewrite app_nil_r, extend_elements_nil. reflexivity.
  - inversion Hwf as [| ? ? Hr Hrs]; subst.
    cbn [length Nat.add]. rewrite parse_loop_unfold.
    assert (Hlt : (length pre <? length (pre ++ encode (r :: rs) ++ suf))%nat = true).
    { apply Nat.ltb_lt. unfold encode, tlv_bytes. cbn [flat_map].
      rewrite !length_app. cbn [length]. lia. }
    rewrite Hlt.
    unfold encode. cbn [flat_map captured]. fold (encode rs). fold (captured rs).
    rewrite <- (app_assoc (tlv_bytes r)).
    rewrite (parse_iteration_record pre (encode rs ++ suf) r self Hr).
    cbn [bind fst snd].
    replace (pre ++ tlv_bytes r ++ encode rs ++ suf)
      with ((pre ++ tlv_bytes r) ++ encode rs ++ suf) by (rewrite <- app_assoc; reflexivity).
    rewrite (IH (pre ++ tlv_bytes r) suf _ fuel Hrs).
    f_equal.
    + rewrite <- app_assoc. reflexivity.
    + unfold extend_elements. cbn. rewrite <- app_assoc. reflexivity.
Qed.

(** The whole loop on a buffer made of complete records and a rest: the
    cursor gets to the rest with the records' elements kept. *)
Lemma parse_loop_encode (rs : list tlv) (suf : list byte) (self : BleAdvParser) :
  Forall tlv_wf rs ->
  parse_loop (length (encode rs ++ suf)) (encode rs ++ suf) 0 self
  = parse_loop (length (encode rs ++ suf) - length rs) (encode rs ++ suf)
      (length (encode rs)) (extend_elements self (captured rs)).
Proof.
  intros Hwf.
  pose proof (length_encode rs) as Hle.
  pose proof (parse_loop_records rs [] suf self
                (length (encode rs ++ suf) - length rs) Hwf) as Hloop.
  cbn [app length] in Hloop. rewrite <- Hloop. f_equal.
  rewrite length_app. lia.
Qed.

(** On complete records alone the loop returns. *)
Lemma parse_loop_complete (rs : list tlv) (self : BleAdvParser) :
  Forall tlv_wf rs ->
  parse_loop (length (encode rs)) (encode rs) 0 self
  = Returns (extend_elements self (captured rs)).
Proof.
  intros Hwf.
  pose proof (parse_loop_encode rs [] self Hwf) as Hloop.
  rewrite app_nil_r in Hloop. rewrite Hloop.
  apply parse_loop_done. lia.
Qed.

(** A single byte after complete records: the header read raises. *)
Lemma parse_loop_trailing_byte (rs : list tlv) (b : byte) (self : BleAdvParser) :
  Forall tlv_wf rs ->
  parse_loop (length (encode rs ++ [b])) (encode rs ++ [b]) 0 self = Raises StructError.
Proof.
  intros Hwf. rewrite (parse_loop_encode rs [b] self Hwf).
  pose proof (length_encode rs) as Hle.
  rewrite parse_loop_unfold, length_app. cbn [length].
  destruct (Nat.ltb_spec (length (encode rs)) (length (encode rs) + 1)) as [_ | ?]; [| lia].
  destruct (length (encode rs) + 1 - length rs)%nat as [| fuel] eqn:Hfuel; [lia |].
  destruct (parse_iteration_cases (encode rs ++ [b]) (length (encode rs))
              (extend_elements self (captured rs)))
    as [[_ ->] | (l & t & Hlen & _)]; [reflexivity |].
  rewrite length_app in Hlen. cbn [length] in Hlen. lia.
Qed.

(** ** The advertisement parser: filling the tables *)

Lemma byte_val_255 (b : byte) : (byte_val b =? 255) = bool_decide (b = xff).
Proof. destruct b; reflexivity. Qed.

Lemma byte_val_22 (b : byte) : (byte_val b =? 22) = bool_decide (b = x16).
Proof. destruct b; reflexivity. Qed.

(** When every record of type [0xFF] or [0x16] carries an identifier,
    the elements kept for the records fill the tables record by record. *)
Lemma parse_ad_elements_records (rs : list tlv) :
  forall self : BleAdvParser,
    Forall has_identifier rs ->
    parse_ad_elements_from (captured rs) self
    = Returns (mk_BleAdvParser
                 (foldl put_entry (mfg_data self) (filter (fun r => tlv_type r = xff) rs))
                 (foldl put_entry (service_data self) (filter (fun r => tlv_type r = x16) rs))
                 (ad_elements self)).
Proof.
  induction rs as [| r rs IH]; intros self Hids.
  - destruct self. reflexivity.
  - inversion Hids as [| ? ? Hr Hrs]; subst.
    cbn [captured flat_map]. fold (captured rs). rewrite !filter_cons.
    unfold has_identifier in Hr. unfold captured_one.
    destruct r as [l t payload]. cbn [tlv_payload tlv_type] in *.
    destruct payload as [| b payload].
    + cbn [app]. cbn [length] in Hr.
      destruct (decide (t = xff)) as [Hff | _]; [specialize (Hr (or_introl Hff)); lia |].
      destruct (decide (t = x16)) as [H16 | _]; [specialize (Hr (or_intror H16)); lia |].
      apply IH, Hrs.
    + cbn [app parse_ad_elements_from]. unfold parse_ad_element.
      cbn [ad_type ad_data]. rewrite byte_val_255, byte_val_22, unpack_identifier.
      destruct (decide (t = xff)) as [-> | Hff].
      * rewrite bool_decide_eq_true_2 by reflexivity.
        specialize (Hr (or_introl eq_refl)).
        destruct (Nat.ltb_spec (length (b :: payload)) 2); [lia |].
        cbn [bind]. rewrite (IH _ Hrs). cbn [mfg_data service_data ad_elements].
        destruct (decide (xff = x16)); [discriminate |]. reflexivity.
      * rewrite bool_decide_eq_false_2 by exact Hff.
        destruct (decide (t = x16)) as [-> | H16].
        -- rewrite bool_decide_eq_true_2 by reflexivity.
           specialize (Hr (or_intror eq_refl)).
           destruct (Nat.ltb_spec (length (b :: payload)) 2); [lia |].
           cbn [bind]. rewrite (IH _ Hrs). reflexivity.
        -- rewrite bool_decide_eq_false_2 by exact H16.
           cbn [bind]. apply IH, Hrs.
Qed.

(** C7: for a buffer made of well-formed records among which exactly one
    has type [0xFF], with identifier 1177 and payload [p] after it, and
    exactly one has type [0x16], with identifier [0xFE95] and payload [q]
    after it, [parse] returns with [mfg_data = {1177: p}] and
    [service_data = {0xFE95: q}]; the records may come in any order. *)
Theorem parse_recovers_payloads (rs : list tlv) (lm ls : byte) (p q : list byte) :
  Forall tlv_wf rs ->
  filter (fun r => tlv_type r = xff) rs = [mk_tlv lm xff (x99 :: x04 :: p)] ->
  filter (fun r => tlv_type r = x16) rs = [mk_tlv ls x16 (x95 :: xfe :: q)] ->
  exists self',
    parse BleAdvParser_new (encode rs) = Returns self'
    /\ mfg_data self' = {[ RUUVI_MFG_ID := p ]}
    /\ service_data self' = {[ MIJIA_SVC_ID := q ]}.
Proof.
  intros Hwf Hm Hs.
  assert (Hids : Forall has_identifier rs).
  { apply Forall_forall. intros r Hin [Hff | H16].
    - assert (Hr : r ∈ filter (fun r => tlv_type r = xff) rs)
        by (apply list_elem_of_filter; split; assumption).
      rewrite Hm in Hr. apply list_elem_of_singleton in Hr. subst r. cbn. lia.
    - assert (Hr : r ∈ filter (fun r => tlv_type r = x16) rs)
        by (apply list_elem_of_filter; split; assumption).
      rewrite Hs in Hr. apply list_elem_of_singleton in Hr. subst r. cbn. lia. }
  unfold parse. rewrite (parse_loop_complete rs _ Hwf). cbn [bind].
  unfold parse_ad_elements. cbn [extend_elements BleAdvParser_new ad_elements app].
  rewrite (parse_ad_elements_records rs _ Hids), Hm, Hs.
  eexists. split; [reflexivity |]. split; reflexivity.
Qed.

Lemma parse_recovers_payloads_witness :
  (exists self',
     parse BleAdvParser_new
       (encode [mk_tlv x02 x01 [x06]; mk_tlv x04 xff [x99; x04; x07];
                mk_tlv x05 x16 [x95; xfe; x0a; x0b]]) = Returns self'
     /\ mfg_data self' = {[ RUUVI_MFG_ID := [x07] ]}
     /\ service_data self' = {[ MIJIA_SVC_ID := [x0a; x0b] ]})
  /\ (exists self',
        parse BleAdvParser_new
          (encode [mk_tlv x05 x16 [x95; xfe; x0a; x0b]; mk_tlv x02 x01 [x06];
                   mk_tlv x04 xff [x99; x04; x07]]) = Returns self'
        /\ mfg_data self' = {[ RUUVI_MFG_ID := [x07] ]}
        /\ service_data self' = {[ MIJIA_SVC_ID := [x0a; x0b] ]}).
Proof.
  split.
  - apply (parse_recovers_payloads
             [mk_tlv x02 x01 [x06]; mk_tlv x04 xff [x99; x04; x07];
              mk_tlv x05 x16 [x95; xfe; x0a; x0b]] x04 x05 [x07] [x0a; x0b]).
    + repeat constructor.
    + reflexivity.
    + reflexivity.
  - apply (parse_recovers_payloads
             [mk_tlv x05 x16 [x95; xfe; x0a; x0b]; mk_tlv x02 x01 [x06];
              mk_tlv x04 xff [x99; x04; x07]] x04 x05 [x07] [x0a; x0b]).
    + repeat constructor.
    + reflexivity.
    + reflexivity.
Defined.

(** ** The advertisement parser: what it raises *)

Lemma parse_ad_elements_from_app (es1 es2 : list ad_element) :
  forall self : BleAdvParser,
    parse_ad_elements_from (es1 ++ es2) self
    = (do self' <- parse_ad_elements_from es1 self ;; parse_ad_elements_from es2 self').
Proof.
  induction es1 as [| e es1 IH]; intros self; [reflexivity |].
  cbn [app parse_ad_elements_from].
  destruct (parse_ad_element self e) as [self' | ex |]; cbn [bind]; [apply IH | reflexivity ..].
Qed.

(** An element of type [0xFF] or [0x16] with fewer than two bytes makes
    [parse_ad_elements] raise, whatever comes before and after it. *)
Lemma parse_ad_elements_from_short (es1 es2 : list ad_element) (e : ad_element)
    (self : BleAdvParser) :
  ad_type e = 255 \/ ad_type e = 22 ->
  (length (ad_data e) < 2)%nat ->
  parse_ad_elements_from (es1 ++ e :: es2) self = Raises StructError.
Proof.
  intros Hty Hshort. rewrite parse_ad_elements_from_app.
  destruct (parse_ad_elements_from_total es1 self) as [[self' ->] | ->]; [| reflexivity].
  cbn [bind parse_ad_elements_from]. unfold parse_ad_element. rewrite unpack_identifier.
  destruct (Nat.ltb_spec (length (ad_data e)) 2) as [_ | ?]; [| lia].
  destruct Hty as [-> | ->]; reflexivity.
Qed.

(** What [parse] does, by kind of buffer: on every byte buffer it comes to
    an end, and it either returns or raises [struct.error], nothing else.
    It returns empty tables on the empty buffer, and it returns on every
    buffer made of complete records in which each record of type [0xFF]
    or [0x16] has at least two payload bytes. A single trailing byte
    after complete records raises [struct.error], and so does a complete
    record of type [0xFF] or [0x16] with a one-byte payload. *)
Lemma parse_returns_or_struct_error :
  (forall (self : BleAdvParser) (data : list byte),
     (exists self', parse self data = Returns self')
     \/ parse self data = Raises StructError)
  /\ parse BleAdvParser_new [] = Returns BleAdvParser_new
  /\ (forall rs : list tlv,
        Forall tlv_wf rs -> Forall has_identifier rs ->
        exists self', parse BleAdvParser_new (encode rs) = Returns self')
  /\ (forall (rs : list tlv) (b : byte),
        Forall tlv_wf rs ->
        parse BleAdvParser_new (encode rs ++ [b]) = Raises StructError)
  /\ (forall (rs : list tlv) (r : tlv),
        Forall tlv_wf rs -> r ∈ rs ->
        tlv_type r = xff \/ tlv_type r = x16 ->
        length (tlv_payload r) = 1%nat ->
        parse BleAdvParser_new (encode rs) = Raises StructError).
Proof.
  split; [exact parse_total |]. split; [reflexivity |].
  split; [| split].
  - intros rs Hwf Hids. unfold parse.
    rewrite (parse_loop_complete rs _ Hwf). cbn [bind].
    unfold parse_ad_elements. cbn [extend_elements BleAdvParser_new ad_elements app].
    rewrite (parse_ad_elements_records rs _ Hids). eexists. reflexivity.
  - intros rs b Hwf. unfold parse.
    rewrite (parse_loop_trailing_byte rs b _ Hwf). reflexivity.
  - intros rs r Hwf Hin Hty Hone. unfold parse.
    rewrite (parse_loop_complete rs _ Hwf). cbn [bind].
    unfold parse_ad_elements. cbn [extend_elements BleAdvParser_new ad_elements app].
    apply list_elem_of_split in Hin as (rs1 & rs2 & ->).
    unfold captured. rewrite flat_map_app. cbn [flat_map].
    destruct r as [l t payload]. cbn [tlv_type tlv_payload] in *.
    destruct payload as [| b [| ? ?]]; try discriminate.
    unfold captured_one at 2. cbn [tlv_payload tlv_type app].
    apply parse_ad_elements_from_short; cbn [ad_type ad_data length]; [| lia].
    destruct Hty as [-> | ->]; [left | right]; reflexivity.
Qed.

Lemma parse_returns_or_struct_error_witness :
  (exists self',
     parse BleAdvParser_new (encode [mk_tlv x02 x01 [x06]; mk_tlv x03 xff [x99; x04]])
     = Returns self')
  /\ parse BleAdvParser_new (encode [mk_tlv x02 x01 [x06]] ++ [x05]) = Raises StructError
  /\ parse BleAdvParser_new (encode [mk_tlv x02 x01 [x06]; mk_tlv x02 xff [x99]])
     = Raises StructError.
Proof.
  destruct parse_returns_or_struct_error as (_ & _ & Hret & Htrail & Hshort).
  split; [| split].
  - apply (Hret [mk_tlv x02 x01 [x06]; mk_tlv x03 xff [x99; x04]]).
    + repeat constructor.
    + constructor; [intros [H | H]; discriminate |].
      constructor; [intros _; cbn; lia | constructor].
  - apply (Htrail [mk_tlv x02 x01 [x06]] x05). repeat constructor.
  - apply (Hshort [mk_tlv x02 x01 [x06]; mk_tlv x02 xff [x99]] (mk_tlv x02 xff [x99])).
    + repeat constructor.
    + set_solver.
    + left. reflexivity.
    + reflexivity.
Defined.

(** C1: [parse] raises on short input where the claim says it completes.
    On [01 01 05] the last byte is alone at the cursor and the two-byte
    header read raises [struct.error]; on [02 FF 99] the element of type
    [0xFF] has one payload byte and the two-byte identifier read raises
    it. So it is not true that [parse] returns on every buffer. No
    handler of the main loop catches [struct.error]: a line with either
    buffer ends the loop, and the records that follow are not
    processed. *)
Theorem parse_short_input_propagates :
  parse BleAdvParser_new [x01; x01; x05] = Raises StructError
  /\ parse BleAdvParser_new [x02; xff; x99] = Raises StructError
  /\ ~ (forall data : list byte,
          exists self', parse BleAdvParser_new data = Returns self')
  /\ main_catches StructError = false
  /\ (forall later : list record,
        main_loop (mk_world SENSOR_MAP_initial []) (trailing_byte_record :: later)
        = (mk_world SENSOR_MAP_initial [], Raises StructError))
  /\ (forall later : list record,
        main_loop (mk_world SENSOR_MAP_initial []) (short_element_record :: later)
        = (mk_world SENSOR_MAP_initial [], Raises StructError)).
Proof.
  split; [reflexivity |]. split; [reflexivity |].
  split.
  { intros Hall. destruct (Hall [x01; x01; x05]) as [self' Hret]. discriminate Hret. }
  split; [reflexivity |].
  assert (Htrail : main_iteration (mk_world SENSOR_MAP_initial []) trailing_byte_record
                   = (mk_world SENSOR_MAP_initial [], Raises StructError))
    by (vm_compute; reflexivity).
  assert (Hshort : main_iteration (mk_world SENSOR_MAP_initial []) short_element_record
                   = (mk_world SENSOR_MAP_initial [], Raises StructError))
    by (vm_compute; reflexivity).
  split; intros later; cbn [main_loop].
  - rewrite Htrail. reflexivity.
  - rewrite Hshort. reflexivity.
Qed.

(** ** Dictionaries *)

Section Dict.
Context {V : Type}.
Implicit Types (d other : pydict V) (k j : string) (v : V).

Lemma dict_get_None k d : k ∉ dict_keys d -> dict_get k d = None.
Proof.
  induction d as [| [k' v'] d IH]; intros Hk; [reflexivity |].
  cbn [dict_get]. cbn in Hk. apply not_elem_of_cons in Hk as [Hne Hk].
  destruct (String.eqb_spec k' k); [congruence | auto].
Qed.

Lemma dict_get_elem k v d : dict_get k d = Some v -> (k, v) ∈ d.
Proof.
  induction d as [| [k' v'] d IH]; [discriminate |].
  cbn [dict_get]. destruct (String.eqb_spec k' k) as [-> | _].
  - intros [= ->]. apply list_elem_of_here.
  - intros Hget. apply list_elem_of_further, IH, Hget.
Qed.

Lemma dict_elem_get k v d : NoDup (dict_keys d) -> (k, v) ∈ d -> dict_get k d = Some v.
Proof.
  induction d as [| [k' v'] d IH]; intros Hnd Hin.
  - apply elem_of_nil in Hin. contradiction.
  - cbn in Hnd. apply NoDup_cons in Hnd as [Hk' Hnd]. cbn [dict_get].
    apply elem_of_cons in Hin as [[= -> ->] | Hin].
    + rewrite String.eqb_refl. reflexivity.
    + destruct (String.eqb_spec k' k) as [-> | _]; [| auto].
      exfalso. apply Hk'. change k with (k, v).1.
      apply list_elem_of_fmap_2, Hin.
Qed.

Lemma dict_keys_set k v d :
  dict_keys (dict_set k v d) = if decide (k ∈ dict_keys d) then dict_keys d else dict_keys d ++ [k].
Proof.
  induction d as [| [k' v'] d IH].
  - cbn. destruct (decide (k ∈ [])) as [Hin | _]; [| reflexivity].
    apply elem_of_nil in Hin. contradiction.
  - cbn [dict_set]. change (dict_keys ((k', v') :: d)) with (k' :: dict_keys d).
    destruct (String.eqb_spec k' k) as [-> | Hne].
    + change (dict_keys ((k, v) :: d)) with (k :: dict_keys d).
      rewrite decide_True by apply list_elem_of_here. reflexivity.
    + change (dict_keys ((k', v') :: dict_set k v d))
        with (k' :: dict_keys (dict_set k v d)).
      rewrite IH.
      destruct (decide (k ∈ dict_keys d)) as [Hin | Hout].
      * rewrite decide_True by (apply list_elem_of_further, Hin). reflexivity.
      * rewrite decide_False; [reflexivity |].
        intros [-> | Hin']%elem_of_cons; [apply Hne; reflexivity | auto].
Qed.

Lemma dict_set_NoDup k v d : NoDup (dict_keys d) -> NoDup (dict_keys (dict_set k v d)).
Proof.
  intros Hnd. rewrite dict_keys_set.
  destruct (decide (k ∈ dict_keys d)) as [_ | Hout]; [exact Hnd |].
  apply NoDup_app. split; [exact Hnd |]. split.
  - intros x Hx Hx'. apply list_elem_of_singleton in Hx'. subst x. auto.
  - apply NoDup_singleton.
Qed.

Lemma dict_set_fresh k v d : k ∉ dict_keys d -> dict_set k v d = d ++ [(k, v)].
Proof.
  induction d as [| [k' v'] d IH]; intros Hk; [reflexivity |].
  cbn in Hk. apply not_elem_of_cons in Hk as [Hne Hk]. cbn [dict_set].
  destruct (String.eqb_spec k' k); [congruence |].
  rewrite (IH Hk). reflexivity.
Qed.

Lemma dict_get_set k v j d :
  dict_get j (dict_set k v d) = if String.eqb k j then Some v else dict_get j d.
Proof.
  induction d as [| [k' v'] d IH].
  - cbn [dict_set dict_get]. destruct (String.eqb k j); reflexivity.
  - cbn [dict_set]. destruct (String.eqb_spec k' k) as [-> | Hne].
    + cbn [dict_get]. destruct (String.eqb k j); reflexivity.
    + cbn [dict_get]. rewrite IH.
      destruct (String.eqb_spec k' j) as [-> | _]; [| reflexivity].
      destruct (String.eqb_spec k j); [congruence | reflexivity].
Qed.

Lemma dict_update_cons d k v other :
  dict_update d ((k, v) :: other) = dict_update (dict_set k v d) other.
Proof. reflexivity. Qed.

Lemma dict_update_NoDup other : forall d,
  NoDup (dict_keys d) -> NoDup (dict_keys (dict_update d other)).
Proof.
  induction other as [| [k v] other IH]; intros d Hnd; [exact Hnd |].
  rewrite dict_update_cons. apply IH, dict_set_NoDup, Hnd.
Qed.

(** Merging is last-write-wins per key: a key of [other] gets the value
    [other] has for it, any other key keeps its value. *)
Lemma dict_get_update j other : forall d,
  NoDup (dict_keys other) ->
  dict_get j (dict_update d other)
  = match dict_get j other with
    | Some v => Some v
    | None => dict_get j d
    end.
Proof.
  induction other as [| [k v] other IH]; intros d Hnd; [reflexivity |].
  cbn in Hnd. apply NoDup_cons in Hnd as [Hk Hnd].
  rewrite dict_update_cons, (IH _ Hnd), dict_get_set. cbn [dict_get].
  destruct (String.eqb_spec k j) as [-> | _]; [| reflexivity].
  rewrite (dict_get_None _ _ Hk). reflexivity.
Qed.

(** Merging a batch whose keys are all new appends it. *)
Lemma dict_update_disjoint other : forall d,
  NoDup (dict_keys other) ->
  (forall k, k ∈ dict_keys d -> k ∈ dict_keys other -> False) ->
  dict_update d other = d ++ other.
Proof.
  induction other as [| [k v] other IH]; intros d Hnd Hdisj.
  - rewrite app_nil_r. reflexivity.
  - cbn in Hnd. apply NoDup_cons in Hnd as [Hk Hnd].
    rewrite dict_update_cons, dict_set_fresh.
    + rewrite (IH _ Hnd).
      * rewrite <- app_assoc. reflexivity.
      * intros j Hj Hj'. unfold dict_keys in Hj. rewrite fmap_app in Hj.
        apply elem_of_app in Hj as [Hj | Hj].
        -- apply (Hdisj j Hj). cbn. apply list_elem_of_further, Hj'.
        -- cbn in Hj. apply list_elem_of_singleton in Hj. subst j. auto.
    + intros Hin. apply (Hdisj k Hin). cbn. apply list_elem_of_here.
Qed.

Lemma dict_update_empty other : NoDup (dict_keys other) -> dict_update [] other = other.
Proof.
  intros Hnd. rewrite dict_update_disjoint; [reflexivity | exact Hnd |].
  intros k Hk. apply elem_of_nil in Hk. contradiction.
Qed.

Lemma dict_keys_set_incl k v j d : j ∈ dict_keys d -> j ∈ dict_keys (dict_set k v d).
Proof.
  intros Hj. rewrite dict_keys_set.
  destruct (decide (k ∈ dict_keys d)); [exact Hj |].
  apply elem_of_app. left. exact Hj.
Qed.

Lemma dict_keys_update_incl j other : forall d,
  j ∈ dict_keys d -> j ∈ dict_keys (dict_update d other).
Proof.
  induction other as [| [k v] other IH]; intros d Hj; [exact Hj |].
  rewrite dict_update_cons. apply IH, dict_keys_set_incl, Hj.
Qed.

End Dict.

(** ** The aggregator: batches *)

Lemma json_body_sub (d l : pydict pyval) (tg : pydict string) :
  (forall k v, (k, v) ∈ l -> dict_get k d = Some v) ->
  omap (fun datakey => mk_point datakey tg <$> dict_get datakey d) (dict_keys l)
  = (fun kv => mk_point kv.1 tg kv.2) <$> l.
Proof.
  induction l as [| [k v] l IH]; intros Hsub; [reflexivity |].
  unfold dict_keys. cbn [fmap list_fmap omap list_omap fst snd].
  rewrite (Hsub k v) by apply list_elem_of_here. cbn [fmap option_fmap option_map].
  f_equal. apply IH. intros k' v' Hin. apply Hsub, list_elem_of_further, Hin.
Qed.

(** The batch of a dictionary has one point per item, in order. *)
Lemma json_body_items (d : pydict pyval) (tg : pydict string) :
  NoDup (dict_keys d) ->
  json_body d tg = (fun kv => mk_point kv.1 tg kv.2) <$> d.
Proof.
  intros Hnd. apply json_body_sub. intros k v. apply dict_elem_get, Hnd.
Qed.

Lemma json_body_measurements (d : pydict pyval) (tg : pydict string) :
  NoDup (dict_keys d) ->
  measurement <$> json_body d tg = dict_keys d.
Proof.
  intros Hnd. rewrite (json_body_items d tg Hnd). unfold dict_keys.
  rewrite <- list_fmap_compose. reflexivity.
Qed.

Lemma elem_of_json_body (d : pydict pyval) (tg : pydict string) (p : point) :
  NoDup (dict_keys d) ->
  p ∈ json_body d tg <->
  dict_get (measurement p) d = Some (fields_value p) /\ point_tags p = tg.
Proof.
  intros Hnd. rewrite (json_body_items d tg Hnd), list_elem_of_fmap. split.
  - intros ([k v] & -> & Hin). cbn. split; [apply dict_elem_get; assumption | reflexivity].
  - intros [Hget <-]. exists (measurement p, fields_value p).
    split; [destruct p; reflexivity | apply dict_get_elem, Hget].
Qed.

(** The batch of a dictionary has, for a key, the value the dictionary
    has for it and no other. *)
Lemma json_body_only_value (d : pydict pyval) (tg : pydict string) (k : string) (v : pyval) :
  NoDup (dict_keys d) ->
  dict_get k d = Some v ->
  only_value k tg v (json_body d tg)
  /\ forall v' : pyval, v' <> v -> mk_point k tg v' ∉ json_body d tg.
Proof.
  intros Hnd Hget. split; [split |].
  - apply elem_of_json_body; [exact Hnd |]. split; [exact Hget | reflexivity].
  - intros [m t x] Hp Hm. apply elem_of_json_body in Hp as [Hx Ht]; [| exact Hnd].
    cbn in Hx, Ht, Hm. subst m t. rewrite Hget in Hx. injection Hx as <-. reflexivity.
  - intros v' Hne Hp. apply elem_of_json_body in Hp as [Hx _]; [| exact Hnd].
    cbn in Hx. rewrite Hget in Hx. injection Hx as <-. apply Hne. reflexivity.
Qed.

(** ** The aggregator: one configured device *)

Lemma update_loop_skip (pre rest : list sensor) (addr : string) (data : pydict pyval) (now : Q) :
  Forall (fun s => casefold (address s) <> casefold addr) pre ->
  update_loop (pre ++ rest) addr data now
  = (pre ++ (update_loop rest addr data now).1, (update_loop rest addr data now).2).
Proof.
  induction 1 as [| s pre Hs _ IH].
  - cbn [app]. destruct (update_loop rest addr data now). reflexivity.
  - cbn [app update_loop]. rewrite (update_sensor_no_match _ _ _ _ Hs), IH. reflexivity.
Qed.

Section Device.

Variables (pre post : list sensor) (a lbl : string) (tg : pydict string) (addr : string).
Hypothesis Hpre : Forall (fun s => casefold (address s) <> casefold addr) pre.
Hypothesis Hpost : Forall (fun s => casefold (address s) <> casefold addr) post.
Hypothesis Hmatch : casefold a = casefold addr.

(** [SENSOR_MAP] with the one matching device in a given state. *)
Local Abbreviation dev last acc := (pre ++ mk_sensor last acc a lbl tg :: post).

(** Inside the window the batch is merged and nothing is sent. *)
Lemma update_device_hold (last now : Q) (acc data : pydict pyval) :
  ~ (TX_INTERVAL <= now - last)%Q ->
  update_sensor_data (dev last acc) addr data now = (dev last (dict_update acc data), []).
Proof using Hpre Hpost Hmatch.
  intros Hin. unfold update_sensor_data. rewrite (update_loop_skip _ _ _ _ _ Hpre).
  cbn [update_loop]. unfold update_sensor. cbn [address last_sent accrued_data label tags].
  rewrite Hmatch, String.eqb_refl.
  destruct (Qle_bool TX_INTERVAL (now - last)) eqn:Hle.
  - apply Qle_bool_iff in Hle. contradiction.
  - rewrite (update_loop_no_match _ _ _ _ Hpost). reflexivity.
Qed.

(** Once the window has elapsed the batch is merged, the whole accrued
    data is sent, the window restarts and the accrued data is cleared. *)
Lemma update_device_flush (last now : Q) (acc data : pydict pyval) :
  (TX_INTERVAL <= now - last)%Q ->
  update_sensor_data (dev last acc) addr data now
  = (dev now [], [json_body (dict_update acc data) tg]).
Proof using Hpre Hpost Hmatch.
  intros Hout. unfold update_sensor_data. rewrite (update_loop_skip _ _ _ _ _ Hpre).
  cbn [update_loop]. unfold update_sensor. cbn [address last_sent accrued_data label tags].
  rewrite Hmatch, String.eqb_refl.
  apply Qle_bool_iff in Hout. rewrite Hout.
  rewrite (update_loop_no_match _ _ _ _ Hpost). reflexivity.
Qed.

(** C3: with the interval of 30, [update_sensor_data] merges the batch
    and sends exactly when [now - last_sent >= 30]. Calls at 0 and 10 with
    batches of disjoint keys send nothing and accrue both batches; a call
    at 31 sends one batch with one point per accrued name, each with the
    device's tags and the accrued value, sets [last_sent] to 31 and clears
    the accrued data; a call at 31.1 accrues afresh and sends nothing, and
    a later call sends exactly when its time is at least 61. *)
Theorem update_window (d1 d2 d3 d4 : pydict pyval) :
  NoDup (dict_keys d1) -> NoDup (dict_keys d2) -> NoDup (dict_keys d4) ->
  (forall k, k ∈ dict_keys d1 -> k ∈ dict_keys d2 -> False) ->
  (forall (last now : Q) (acc data : pydict pyval),
     ((TX_INTERVAL <= now - last)%Q ->
      update_sensor_data (dev last acc) addr data now
      = (dev now [], [json_body (dict_update acc data) tg]))
     /\ (~ (TX_INTERVAL <= now - last)%Q ->
         update_sensor_data (dev last acc) addr data now
         = (dev last (dict_update acc data), [])))
  /\ update_sensor_data (dev 0 []) addr d1 0 = (dev 0 d1, [])
  /\ update_sensor_data (dev 0 d1) addr d2 10 = (dev 0 (d1 ++ d2), [])
  /\ (exists batch : list point,
        update_sensor_data (dev 0 (d1 ++ d2)) addr d3 31 = (dev 31 [], [batch])
        /\ NoDup (measurement <$> batch)
        /\ (forall k, k ∈ dict_keys d1 ++ dict_keys d2 -> k ∈ measurement <$> batch)
        /\ (forall p : point,
              p ∈ batch <->
              dict_get (measurement p) (dict_update (d1 ++ d2) d3) = Some (fields_value p)
              /\ point_tags p = tg))
  /\ update_sensor_data (dev 31 []) addr d4 31.1 = (dev 31 d4, [])
  /\ (forall (t : Q) (d5 : pydict pyval),
        (t < 61)%Q ->
        update_sensor_data (dev 31 d4) addr d5 t = (dev 31 (dict_update d4 d5), []))
  /\ (forall (t : Q) (d5 : pydict pyval),
        (61 <= t)%Q ->
        update_sensor_data (dev 31 d4) addr d5 t
        = (dev t [], [json_body (dict_update d4 d5) tg])).
Proof using Hpre Hpost Hmatch.
  intros Hd1 Hd2 Hd4 Hdisj.
  assert (Hd12 : NoDup (dict_keys (d1 ++ d2))).
  { unfold dict_keys. rewrite fmap_app. apply NoDup_app. auto. }
  split; [| split; [| split; [| split; [| split; [| split]]]]].
  - intros last now acc data. split; [apply update_device_flush | apply update_device_hold].
  - rewrite update_device_hold by (unfold TX_INTERVAL; lra).
    rewrite (dict_update_empty d1 Hd1). reflexivity.
  - rewrite update_device_hold by (unfold TX_INTERVAL; lra).
    rewrite (dict_update_disjoint d2 d1 Hd2 Hdisj). reflexivity.
  - exists (json_body (dict_update (d1 ++ d2) d3) tg).
    pose proof (dict_update_NoDup d3 _ Hd12) as Hacc.
    split; [apply update_device_flush; unfold TX_INTERVAL; lra |].
    split; [rewrite (json_body_measurements _ _ Hacc); exact Hacc |].
    split; [| intros p; apply elem_of_json_body, Hacc].
    intros k Hk. rewrite (json_body_measurements _ _ Hacc).
    apply dict_keys_update_incl. unfold dict_keys. rewrite fmap_app. exact Hk.
  - rewrite update_device_hold by (unfold TX_INTERVAL; lra).
    rewrite (dict_update_empty d4 Hd4). reflexivity.
  - intros t d5 Ht. apply update_device_hold. unfold TX_INTERVAL. lra.
  - intros t d5 Ht. apply update_device_flush. unfold TX_INTERVAL. lra.
Qed.

(** C9: the merge is last-write-wins per key. When two batches for the
    device set the same key to different values, the first inside the
    window, the flush that follows has the second value for the key and no
    other: whether the second batch itself brings the flush, or a later
    batch that does not set the key does. *)
Theorem update_last_write_wins (acc d1 d2 : pydict pyval) (last t1 t2 : Q)
    (k : string) (v1 v2 : pyval) :
  NoDup (dict_keys acc) -> NoDup (dict_keys d2) ->
  dict_get k d1 = Some v1 -> dict_get k d2 = Some v2 -> v1 <> v2 ->
  ~ (TX_INTERVAL <= t1 - last)%Q ->
  update_sensor_data (dev last acc) addr d1 t1 = (dev last (dict_update acc d1), [])
  /\ ((TX_INTERVAL <= t2 - last)%Q ->
      exists batch : list point,
        update_sensor_data (dev last (dict_update acc d1)) addr d2 t2 = (dev t2 [], [batch])
        /\ only_value k tg v2 batch
        /\ mk_point k tg v1 ∉ batch)
  /\ (~ (TX_INTERVAL <= t2 - last)%Q ->
      update_sensor_data (dev last (dict_update acc d1)) addr d2 t2
      = (dev last (dict_update (dict_update acc d1) d2), [])
      /\ forall (d3 : pydict pyval) (t3 : Q),
           NoDup (dict_keys d3) -> dict_get k d3 = None ->
           (TX_INTERVAL <= t3 - last)%Q ->
           exists batch : list point,
             update_sensor_data (dev last (dict_update (dict_update acc d1) d2)) addr d3 t3
             = (dev t3 [], [batch])
             /\ only_value k tg v2 batch
             /\ mk_point k tg v1 ∉ batch).
Proof using Hpre Hpost Hmatch.
  intros Hacc Hd2 Hk1 Hk2 Hne Hin1.
  pose proof (dict_update_NoDup d2 _ (dict_update_NoDup d1 _ Hacc)) as Hacc2.
  assert (Hget2 : dict_get k (dict_update (dict_update acc d1) d2) = Some v2)
    by (rewrite (dict_get_update k d2 _ Hd2), Hk2; reflexivity).
  split; [apply update_device_hold, Hin1 |]. split.
  - intros Hout2. eexists. split; [apply update_device_flush, Hout2 |].
    destruct (json_body_only_value _ tg k v2 Hacc2 Hget2) as [Honly Hno].
    split; [exact Honly | apply Hno, Hne].
  - intros Hin2. split; [apply update_device_hold, Hin2 |].
    intros d3 t3 Hd3 Hk3 Hout3.
    eexists. split; [apply update_device_flush, Hout3 |].
    pose proof (dict_update_NoDup d3 _ Hacc2) as Hacc3.
    assert (Hget3 : dict_get k (dict_update (dict_update (dict_update acc d1) d2) d3) = Some v2)
      by (rewrite (dict_get_update k d3 _ Hd3), Hk3; exact Hget2).
    destruct (json_body_only_value _ tg k v2 Hacc3 Hget3) as [Honly Hno].
    split; [exact Honly | apply Hno, Hne].
Qed.

End Device.

Lemma update_window_witness :
  update_sensor_data SENSOR_MAP_initial "4c:65:a8:d4:03:e3"
    [("temperature"%string, PyFloat 20.1)] 0
  = (take 3 SENSOR_MAP_initial
       ++ [mk_sensor 0 [("temperature"%string, PyFloat 20.1)] "4C:65:A8:D4:03:E3" "{}"
             [("room", "hallway"); ("location", "kitchen")]%string],
     []).
Proof.
  assert (Hpre : Forall (fun s => casefold (address s) <> casefold "4c:65:a8:d4:03:e3")
                   (take 3 SENSOR_MAP_initial))
    by (repeat constructor; discriminate).
  assert (Hpost : Forall (fun s => casefold (address s) <> casefold "4c:65:a8:d4:03:e3") [])
    by constructor.
  destruct (update_window (take 3 SENSOR_MAP_initial) [] "4C:65:A8:D4:03:E3" "{}"
              [("room", "hallway"); ("location", "kitchen")]%string "4c:65:a8:d4:03:e3"
              Hpre Hpost eq_refl
              [("temperature"%string, PyFloat 20.1)] [("humidity"%string, PyFloat 45.3)]
              [("rssi"%string, PyFloat (-70))] [("battery_percent"%string, PyInt 88)])
    as (_ & Hfirst & _).
  - repeat constructor. apply not_elem_of_nil.
  - repeat constructor. apply not_elem_of_nil.
  - repeat constructor. apply not_elem_of_nil.
  - intros k Hk1 Hk2. apply list_elem_of_singleton in Hk1, Hk2. subst k. discriminate.
  - exact Hfirst.
Defined.

Lemma update_last_write_wins_witness :
  update_sensor_data SENSOR_MAP_initial "4c:65:a8:d4:03:e3"
    [("battery_percent"%string, PyInt 88)] 5
  = (take 3 SENSOR_MAP_initial
       ++ [mk_sensor 0 [("battery_percent"%string, PyInt 88)] "4C:65:A8:D4:03:E3" "{}"
             [("room", "hallway"); ("location", "kitchen")]%string],
     []).
Proof.
  assert (Hpre : Forall (fun s => casefold (address s) <> casefold "4c:65:a8:d4:03:e3")
                   (take 3 SENSOR_MAP_initial))
    by (repeat constructor; discriminate).
  assert (Hpost : Forall (fun s => casefold (address s) <> casefold "4c:65:a8:d4:03:e3") [])
    by constructor.
  destruct (update_last_write_wins (take 3 SENSOR_MAP_initial) [] "4C:65:A8:D4:03:E3" "{}"
              [("room", "hallway"); ("location", "kitchen")]%string "4c:65:a8:d4:03:e3"
              Hpre Hpost eq_refl
              [] [("battery_percent"%string, PyInt 88)] [("battery_percent"%string, PyInt 87)]
              0 5 10 "battery_percent" (PyInt 88) (PyInt 87))
    as (Hfirst & _).
  - constructor.
  - repeat constructor. apply not_elem_of_nil.
  - reflexivity.
  - reflexivity.
  - discriminate.
  - unfold TX_INTERVAL. lra.
  - exact Hfirst.
Defined.

(** * Further properties *)

(** ** What [struct.unpack_from] gives *)

Lemma forall_range_spec (P : Z -> bool) (lo : Z) (n : N) :
  forall_range P lo n = true ->
  forall z, lo <= z < lo + Z.of_N n -> P z = true.
Proof.
  unfold forall_range. induction n as [| n IH] using N.peano_ind.
  - intros _ z Hz. lia.
  - rewrite N.recursion_succ; [| reflexivity | intros ? ? -> ? ? ->; reflexivity].
    intros [Hn Hrest]%andb_true_iff z Hz.
    destruct (Z.eq_dec z (lo + Z.of_N n)) as [-> | Hne]; [exact Hn |].
    apply IH; [exact Hrest | lia].
Qed.

Lemma uint_be_acc (bs : list byte) :
  forall acc : Z,
    0 <= acc ->
    0 <= fold_left (fun a b => a * 256 + byte_val b) bs acc
    < (acc + 1) * 256 ^ Z.of_nat (length bs).
Proof.
  induction bs as [| b bs IH]; intros acc Hacc.
  - cbn [fold_left length]. change (256 ^ Z.of_nat 0) with 1. lia.
  - cbn [fold_left length]. pose proof (byte_val_range b) as Hb.
    specialize (IH (acc * 256 + byte_val b) ltac:(lia)).
    rewrite Nat2Z.inj_succ, Z.pow_succ_r by lia.
    assert (0 < 256 ^ Z.of_nat (length bs)) by (apply Z.pow_pos_nonneg; lia).
    nia.
Qed.

Lemma uint_range (e : endian) (bs : list byte) :
  0 <= uint e bs < 256 ^ Z.of_nat (length bs).
Proof.
  destruct e; unfold uint, uint_be.
  - pose proof (uint_be_acc (rev bs) 0 ltac:(lia)) as H.
    rewrite length_rev in H. lia.
  - pose proof (uint_be_acc bs 0 ltac:(lia)) as H. lia.
Qed.

Lemma decode_range (e : endian) (c : code) (bs : list byte) :
  (length bs <= size c)%nat ->
  code_min c <= decode e c bs <= code_max c.
Proof.
  intros Hlen. pose proof (uint_range e bs) as Hu.
  assert (Hpow : 256 ^ Z.of_nat (length bs) <= 256 ^ Z.of_nat (size c))
    by (apply Z.pow_le_mono_r; lia).
  destruct c; cbn [decode code_min code_max size] in *.
  - change (256 ^ Z.of_nat 1) with 256 in Hpow. lia.
  - change (256 ^ Z.of_nat 2) with 65536 in Hpow. lia.
  - change (256 ^ Z.of_nat 2) with 65536 in Hpow. unfold to_signed.
    change (2 ^ (8 * Z.of_nat 2 - 1)) with 32768.
    change (2 ^ (8 * Z.of_nat 2)) with 65536.
    destruct (Z.leb_spec 32768 (uint e bs)); lia.
Qed.

Lemma fields_range (e : endian) (fmt : list code) :
  forall bs : list byte,
    Forall2 (fun c v => code_min c <= v <= code_max c) fmt (fields e fmt bs).
Proof.
  induction fmt as [| c fmt IH]; intros bs; cbn [fields]; constructor.
  - apply decode_range. rewrite length_take. lia.
  - apply IH.
Qed.

(** What [unpack_from] returns has one integer per format character,
    each within the range of its character. *)
Lemma unpack_from_range (e : endian) (fmt : list code) (data : list byte)
    (offset : nat) (vs : list Z) :
  unpack_from e fmt data offset = Returns vs ->
  Forall2 (fun c v => code_min c <= v <= code_max c) fmt vs.
Proof.
  unfold unpack_from.
  destruct (length data - offset <? calcsize fmt)%nat; [discriminate |].
  intros [= <-]. apply fields_range.
Qed.

(** For a format that reads at least one byte, [unpack_from] raises
    [struct.error] exactly when the buffer ends before the last byte it
    needs. *)
Lemma unpack_from_cases (e : endian) (fmt : list code) (data : list byte) (offset : nat) :
  (0 < calcsize fmt)%nat ->
  ((length data < offset + calcsize fmt)%nat
   /\ unpack_from e fmt data offset = Raises StructError)
  \/ ((offset + calcsize fmt <= length data)%nat
      /\ exists vs, unpack_from e fmt data offset = Returns vs
                    /\ Forall2 (fun c v => code_min c <= v <= code_max c) fmt vs).
Proof.
  intros Hpos. unfold unpack_from.
  destruct (Nat.ltb_spec (length data - offset) (calcsize fmt)) as [Hlt | Hge].
  - left. split; [lia | reflexivity].
  - right. split; [lia |]. eexists. split; [reflexivity | apply fields_range].
Qed.

(** ** The Ruuvi decoder on every payload *)

Lemma temperature_range (z : Z) :
  -32768 <= z <= 32767 ->
  in_range (-163.84) 163.835 (int_mul_float z 0.005) = true.
Proof.
  intros Hz.
  apply (forall_range_spec
           (fun z => in_range (-163.84) 163.835 (int_mul_float z 0.005)) (-32768) 65536).
  - vm_compute. reflexivity.
  - lia.
Qed.

Lemma humidity_range (z : Z) :
  0 <= z <= 65535 ->
  in_range 0 163.8375 (int_mul_float z 0.0025) = true.
Proof.
  intros Hz.
  apply (forall_range_spec (fun z => in_range 0 163.8375 (int_mul_float z 0.0025)) 0 65536).
  - vm_compute. reflexivity.
  - lia.
Qed.

Lemma pressure_range (z : Z) :
  0 <= z <= 65535 ->
  in_range 500 1155.35 (float_div_int (float_of_int (z + 50000)) 100) = true.
Proof.
  intros Hz.
  apply (forall_range_spec
           (fun z => in_range 500 1155.35 (float_div_int (float_of_int (z + 50000)) 100))
           0 65536).
  - vm_compute. reflexivity.
  - lia.
Qed.

Lemma battery_range (z : Z) :
  0 <= z <= 2047 ->
  in_range 1.6 3.647 (float_div_int (float_of_int (z + 1600)) 1000) = true.
Proof.
  intros Hz.
  apply (forall_range_spec
           (fun z => in_range 1.6 3.647 (float_div_int (float_of_int (z + 1600)) 1000))
           0 2048).
  - vm_compute. reflexivity.
  - lia.
Qed.

(** The decoder on a format-5 payload of at least 15 bytes: the four raw
    fields are read and the five metrics are made of them. *)
Lemma parse_ruuvi_format5 (data : list byte) :
  (15 <= length data)%nat ->
  byte_val (nth 0 data x00) = 5 ->
  exists temperature humidity atm_pressure power_info : Z,
    -32768 <= temperature <= 32767
    /\ 0 <= humidity <= 65535
    /\ 0 <= atm_pressure <= 65535
    /\ 0 <= power_info <= 65535
    /\ parse_ruuvi_mfg_data data =
         Returns (Some
           [ (TEMPERATURE_LABEL, PyFloat (int_mul_float temperature 0.005));
             (HUMIDITY_LABEL, PyFloat (int_mul_float humidity 0.0025));
             ("atmospheric_pressure"%string,
               PyFloat (float_div_int (float_of_int (atm_pressure + 50000)) 100));
             ("battery_voltage"%string,
               PyFloat (float_div_int (float_of_int (Z.shiftr power_info 5 + 1600)) 1000));
             ("tx_power"%string, PyInt (-40 + 2 * Z.land power_info 0x1F)) ]).
Proof.
  intros Hlen Hfmt. unfold parse_ruuvi_mfg_data.
  destruct (Nat.ltb_spec (length data) 1) as [? | _]; [lia |].
  rewrite Hfmt. destruct (Nat.leb_spec 15 (length data)) as [_ | ?]; [| lia].
  cbn [Z.eqb Pos.eqb andb].
  destruct (unpack_from_cases Big [fmt_h; fmt_H; fmt_H] data 1 ltac:(cbn; lia))
    as [[Hshort _] | (_ & thp & -> & Hthp)]; [cbn in Hshort; lia |].
  destruct (unpack_from_cases Big [fmt_H] data 13 ltac:(cbn; lia))
    as [[Hshort _] | (_ & pw & -> & Hpw)]; [cbn in Hshort; lia |].
  inversion Hthp as [| ? t ? thp1 Ht Hthp1]; subst.
  inversion Hthp1 as [| ? h ? thp2 Hh Hthp2]; subst.
  inversion Hthp2 as [| ? p ? thp3 Hp Hthp3]; subst.
  inversion Hthp3; subst.
  inversion Hpw as [| ? w ? pw1 Hw Hpw1]; subst. inversion Hpw1; subst.
  cbn [code_min code_max] in *. cbn [bind].
  exists t, h, p, w. repeat (split; [assumption |]). reflexivity.
Qed.

(** X1: [parse_ruuvi_mfg_data] raises nothing, whatever the payload: it
    returns [None] on the empty payload and a dictionary on every
    other. *)
Theorem parse_ruuvi_never_raises (data : list byte) :
  (data = [] /\ parse_ruuvi_mfg_data data = Returns None)
  \/ (data <> [] /\ exists d, parse_ruuvi_mfg_data data = Returns (Some d)).
Proof.
  destruct data as [| b rest]; [left; split; reflexivity |].
  right. split; [discriminate |].
  destruct (Z.eq_dec (byte_val b) 5) as [Hfmt | Hfmt].
  - destruct (Nat.le_gt_cases 15 (length (b :: rest))) as [Hlen | Hlen].
    + destruct (parse_ruuvi_format5 (b :: rest) Hlen Hfmt) as (t & h & p & w & _ & _ & _ & _ & ->).
      eexists. reflexivity.
    + exists []. unfold parse_ruuvi_mfg_data.
      change (length (b :: rest) <? 1)%nat with false. cbv iota.
      destruct (Nat.leb_spec 15 (length (b :: rest))); [lia |].
      rewrite andb_false_r. reflexivity.
  - exists []. unfold parse_ruuvi_mfg_data.
    change (length (b :: rest) <? 1)%nat with false. cbv iota.
    change (nth 0 (b :: rest) x00) with b.
    destruct (Z.eqb_spec (byte_val b) 5); [contradiction | reflexivity].
Qed.

(** X2: whatever the payload, a dictionary the Ruuvi decoder returns is
    empty or has the five metrics in this order, with the temperature in
    [-163.84, 163.835], the humidity in [0, 163.8375], the pressure in
    [500, 1155.35], the battery voltage in [1.6, 3.647], and the tx power
    an even integer in [-40, 22]. *)
Theorem parse_ruuvi_ranges (data : list byte) (d : pydict pyval) :
  parse_ruuvi_mfg_data data = Returns (Some d) ->
  d = []
  \/ exists (t h p b : float) (tx : Z),
       d = [ ("temperature"%string, PyFloat t);
             ("humidity"%string, PyFloat h);
             ("atmospheric_pressure"%string, PyFloat p);
             ("battery_voltage"%string, PyFloat b);
             ("tx_power"%string, PyInt tx) ]
       /\ in_range (-163.84) 163.835 t = true
       /\ in_range 0 163.8375 h = true
       /\ in_range 500 1155.35 p = true
       /\ in_range 1.6 3.647 b = true
       /\ -40 <= tx <= 22 /\ Z.even tx = true.
Proof.
  intros Hret.
  destruct (Nat.le_gt_cases 15 (length data)) as [Hlen | Hlen];
    [destruct (Z.eq_dec (byte_val (nth 0 data x00)) 5) as [Hfmt | Hfmt] |].
  - destruct (parse_ruuvi_format5 data Hlen Hfmt)
      as (t & h & p & w & Ht & Hh & Hp & Hw & Heq).
    rewrite Heq in Hret. injection Hret as <-. right.
    eexists _, _, _, _, _. split; [reflexivity |].
    split; [apply temperature_range, Ht |].
    split; [apply humidity_range, Hh |].
    split; [apply pressure_range, Hp |].
    assert (Hsh : 0 <= Z.shiftr w 5 <= 2047).
    { rewrite Z.shiftr_div_pow2 by lia. change (2 ^ 5) with 32.
      assert (w / 32 < 2048) by (apply Z.div_lt_upper_bound; lia).
      assert (0 <= w / 32) by (apply Z.div_pos; lia). lia. }
    assert (Hland : 0 <= Z.land w 0x1F <= 31).
    { change (Z.land w 0x1F) with (Z.land w (Z.ones 5)).
      rewrite Z.land_ones by lia. change (2 ^ 5) with 32.
      pose proof (Z.mod_pos_bound w 32 ltac:(lia)). lia. }
    split; [apply battery_range, Hsh |].
    split; [lia |].
    rewrite Z.even_add_mul_2. reflexivity.
  - left. unfold parse_ruuvi_mfg_data in Hret.
    destruct (length data <? 1)%nat; [discriminate |].
    destruct (Z.eqb_spec (byte_val (nth 0 data x00)) 5); [contradiction |].
    cbn [andb] in Hret. injection Hret as <-. reflexivity.
  - left. unfold parse_ruuvi_mfg_data in Hret.
    destruct (length data <? 1)%nat; [discriminate |].
    destruct (Nat.leb_spec 15 (length data)); [lia |].
    rewrite andb_false_r in Hret. injection Hret as <-. reflexivity.
Qed.

Lemma parse_ruuvi_ranges_witness :
  [ ("temperature"%string, PyFloat 20.45);
    ("humidity"%string, PyFloat 35.0625);
    ("atmospheric_pressure"%string, PyFloat 1009.06);
    ("battery_voltage"%string, PyFloat 3.055);
    ("tx_power"%string, PyInt 4) ] = []
  \/ exists (t h p b : float) (tx : Z),
       [ ("temperature"%string, PyFloat 20.45);
         ("humidity"%string, PyFloat 35.0625);
         ("atmospheric_pressure"%string, PyFloat 1009.06);
         ("battery_voltage"%string, PyFloat 3.055);
         ("tx_power"%string, PyInt 4) ]
       = [ ("temperature"%string, PyFloat t);
           ("humidity"%string, PyFloat h);
           ("atmospheric_pressure"%string, PyFloat p);
           ("battery_voltage"%string, PyFloat b);
           ("tx_power"%string, PyInt tx) ]
       /\ in_range (-163.84) 163.835 t = true
       /\ in_range 0 163.8375 h = true
       /\ in_range 500 1155.35 p = true
       /\ in_range 1.6 3.647 b = true
       /\ -40 <= tx <= 22 /\ Z.even tx = true.
Proof.
  apply (parse_ruuvi_ranges ruuvi_sample). vm_compute. reflexivity.
Defined.

(** ** The Mijia decoder on every payload *)

Lemma mijia_range (z : Z) :
  0 <= z <= 65535 ->
  in_range 0 6553.5 (int_truediv z 10) = true.
Proof.
  intros Hz.
  apply (forall_range_spec (fun z => in_range 0 6553.5 (int_truediv z 10)) 0 65536).
  - vm_compute. reflexivity.
  - lia.
Qed.

Lemma byte_val_sub_types (b : byte) :
  (byte_val b =? 0x0D) = bool_decide (b = x0d)
  /\ (byte_val b =? 0x06) = bool_decide (b = x06)
  /\ (byte_val b =? 0x04) = bool_decide (b = x04)
  /\ (byte_val b =? 0x0A) = bool_decide (b = x0a).
Proof. destruct b; repeat split; reflexivity. Qed.

Lemma mijia_needed_other (b : byte) :
  b <> x0d -> b <> x06 -> b <> x04 -> b <> x0a -> mijia_needed b = 12%nat.
Proof. destruct b; intros; first [reflexivity | contradiction]. Qed.

(** The sub-type read of the decoder. *)
Lemma unpack_sub_type (data : list byte) :
  (12 <= length data)%nat ->
  unpack_from Little [fmt_B] data 11 = Returns [byte_val (nth 11 data x00)].
Proof.
  intros Hlen.
  do 12 (destruct data as [| ? data]; [simpl in Hlen; lia |]).
  reflexivity.
Qed.

Lemma mijia_values_ok_nil : mijia_values_ok [].
Proof. intros k v Hget. discriminate Hget. Qed.

Lemma mijia_values_ok_float (k : string) (z : Z) (d : pydict pyval) :
  k = "temperature"%string \/ k = "humidity"%string ->
  0 <= z <= 65535 ->
  mijia_values_ok d ->
  mijia_values_ok (dict_set k (PyFloat (int_truediv z 10)) d).
Proof.
  intros Hk Hz Hd j v. rewrite dict_get_set.
  destruct (String.eqb_spec k j) as [<- | _]; [| apply Hd].
  intros [= <-]. left. split; [exact Hk |].
  eexists. split; [reflexivity | apply mijia_range, Hz].
Qed.

(** The decoder on a payload of at least 12 bytes: it raises
    [struct.error] when the payload is shorter than its sub-type needs and
    returns a dictionary otherwise. *)
Lemma parse_mijia_decodes (data : list byte) :
  (12 <= length data)%nat ->
  ((length data < mijia_needed (nth 11 data x00))%nat ->
   parse_mijia_sensor_data data = Raises StructError)
  /\ ((mijia_needed (nth 11 data x00) <= length data)%nat ->
      exists d, parse_mijia_sensor_data data = Returns (Some d) /\ mijia_values_ok d).
Proof.
  intros Hlen. unfold parse_mijia_sensor_data.
  destruct (Nat.ltb_spec (length data) 12) as [? | _]; [lia |].
  rewrite (unpack_sub_type data Hlen). cbn [bind].
  destruct (byte_val_sub_types (nth 11 data x00)) as (-> & -> & -> & ->).
  destruct (decide (nth 11 data x00 = x0d)) as [-> | H0d].
  { rewrite bool_decide_eq_true_2 by reflexivity. cbn [mijia_needed].
    destruct (unpack_from_cases Little [fmt_H; fmt_H] data 14 ltac:(cbn; lia))
      as [[Hs ->] | (Hl & vs & -> & Hvs)]; cbn [calcsize foldr size] in *.
    - split; [reflexivity | lia].
    - split; [lia | intros _].
      inversion Hvs as [| ? t ? vs1 Ht Hvs1]; subst.
      inversion Hvs1 as [| ? h ? vs2 Hh Hvs2]; subst. inversion Hvs2; subst.
      cbn [bind code_min code_max] in *. eexists. split; [reflexivity |].
      apply mijia_values_ok_float; [right; reflexivity | exact Hh |].
      apply mijia_values_ok_float; [left; reflexivity | exact Ht |].
      apply mijia_values_ok_nil. }
  rewrite bool_decide_eq_false_2 by exact H0d.
  destruct (decide (nth 11 data x00 = x06)) as [-> | H06].
  { rewrite bool_decide_eq_true_2 by reflexivity. cbn [mijia_needed].
    destruct (unpack_from_cases Little [fmt_H] data 14 ltac:(cbn; lia))
      as [[Hs ->] | (Hl & vs & -> & Hvs)]; cbn [calcsize foldr size] in *.
    - split; [reflexivity | lia].
    - split; [lia | intros _].
      inversion Hvs as [| ? h ? vs1 Hh Hvs1]; subst. inversion Hvs1; subst.
      cbn [bind code_min code_max] in *. eexists. split; [reflexivity |].
      apply mijia_values_ok_float; [right; reflexivity | exact Hh |].
      apply mijia_values_ok_nil. }
  rewrite bool_decide_eq_false_2 by exact H06.
  destruct (decide (nth 11 data x00 = x04)) as [-> | H04].
  { rewrite bool_decide_eq_true_2 by reflexivity. cbn [mijia_needed].
    destruct (unpack_from_cases Little [fmt_H] data 14 ltac:(cbn; lia))
      as [[Hs ->] | (Hl & vs & -> & Hvs)]; cbn [calcsize foldr size] in *.
    - split; [reflexivity | lia].
    - split; [lia | intros _].
      inversion Hvs as [| ? t ? vs1 Ht Hvs1]; subst. inversion Hvs1; subst.
      cbn [bind code_min code_max] in *. eexists. split; [reflexivity |].
      apply mijia_values_ok_float; [left; reflexivity | exact Ht |].
      apply mijia_values_ok_nil. }
  rewrite bool_decide_eq_false_2 by exact H04.
  destruct (decide (nth 11 data x00 = x0a)) as [-> | H0a].
  { rewrite bool_decide_eq_true_2 by reflexivity. cbn [mijia_needed].
    destruct (unpack_from_cases Little [fmt_B] data 14 ltac:(cbn; lia))
      as [[Hs ->] | (Hl & vs & -> & Hvs)]; cbn [calcsize foldr size] in *.
    - split; [reflexivity | lia].
    - split; [lia | intros _].
      inversion Hvs as [| ? z ? vs1 Hz Hvs1]; subst. inversion Hvs1; subst.
      cbn [bind code_min code_max] in *. eexists. split; [reflexivity |].
      intros j v. rewrite dict_get_set.
      destruct (String.eqb_spec "battery_percent" j) as [<- | _]; [| discriminate].
      intros [= <-]. right. split; [reflexivity |]. exists z. split; [reflexivity | exact Hz]. }
  rewrite bool_decide_eq_false_2 by exact H0a.
  rewrite (mijia_needed_other _ H0d H06 H04 H0a).
  split; [lia | intros _]. exists []. split; [reflexivity | apply mijia_values_ok_nil].
Qed.

(** X3: [parse_mijia_sensor_data] returns [None] below 12 bytes; from 12
    bytes on it raises [struct.error] exactly when the payload is shorter
    than its sub-type needs (18 bytes for [0x0D], 16 for [0x06] and
    [0x04], 15 for [0x0A]), and returns a dictionary otherwise. It raises
    nothing else. *)
Theorem parse_mijia_outcome (data : list byte) :
  ((length data < 12)%nat /\ parse_mijia_sensor_data data = Returns None)
  \/ ((12 <= length data < mijia_needed (nth 11 data x00))%nat
      /\ parse_mijia_sensor_data data = Raises StructError)
  \/ ((12 <= length data)%nat /\ (mijia_needed (nth 11 data x00) <= length data)%nat
      /\ exists d, parse_mijia_sensor_data data = Returns (Some d)).
Proof.
  destruct (Nat.le_gt_cases 12 (length data)) as [Hlen | Hlen].
  - destruct (parse_mijia_decodes data Hlen) as [Hraise Hret].
    destruct (Nat.le_gt_cases (mijia_needed (nth 11 data x00)) (length data)) as [Hok | Hshort].
    + right. right. destruct (Hret Hok) as (d & -> & _).
      split; [exact Hlen |]. split; [exact Hok |]. exists d. reflexivity.
    + right. left. split; [lia | apply Hraise, Hshort].
  - left. split; [exact Hlen |]. unfold parse_mijia_sensor_data.
    destruct (Nat.ltb_spec (length data) 12); [reflexivity | lia].
Qed.

(** X4: whatever the payload, a dictionary the Mijia decoder returns holds
    only temperatures and humidities in [0, 6553.5] and battery levels in
    [0, 255]: the 16-bit fields are read unsigned, so no decoded
    temperature is negative. *)
Theorem parse_mijia_ranges (data : list byte) (d : pydict pyval) :
  parse_mijia_sensor_data data = Returns (Some d) -> mijia_values_ok d.
Proof.
  intros Hret.
  destruct (Nat.le_gt_cases 12 (length data)) as [Hlen | Hlen].
  - destruct (parse_mijia_decodes data Hlen) as [Hraise Hok].
    destruct (Nat.le_gt_cases (mijia_needed (nth 11 data x00)) (length data)) as [Hn | Hn].
    + destruct (Hok Hn) as (d' & Heq & Hvals). rewrite Heq in Hret.
      injection Hret as <-. exact Hvals.
    + rewrite (Hraise Hn) in Hret. discriminate.
  - unfold parse_mijia_sensor_data in Hret.
    destruct (Nat.ltb_spec (length data) 12); [discriminate | lia].
Qed.

Lemma parse_mijia_ranges_witness :
  (("humidity"%string = "temperature"%string \/ "humidity"%string = "humidity"%string)
   /\ exists f : float, PyFloat 45.3 = PyFloat f /\ in_range 0 6553.5 f = true)
  \/ ("humidity"%string = "battery_percent"%string
      /\ exists z : Z, PyFloat 45.3 = PyInt z /\ 0 <= z <= 255).
Proof.
  apply (parse_mijia_ranges mijia_sample
           [("temperature"%string, PyFloat 20.1); ("humidity"%string, PyFloat 45.3)]).
  - vm_compute. reflexivity.
  - reflexivity.
Defined.

Lemma parse_mijia_take_18 (data : list byte) :
  (18 <= length data)%nat ->
  parse_mijia_sensor_data data = parse_mijia_sensor_data (take 18 data).
Proof.
  intros Hlen.
  do 18 (destruct data as [| ? data]; [simpl in Hlen; lia |]).
  reflexivity.
Qed.

(** X5: the Mijia decoder reads nothing beyond the first 18 bytes: two
    payloads of at least 18 bytes that agree on them decode alike. *)
Theorem parse_mijia_first_18 (d1 d2 : list byte) :
  (18 <= length d1)%nat -> (18 <= length d2)%nat ->
  take 18 d1 = take 18 d2 ->
  parse_mijia_sensor_data d1 = parse_mijia_sensor_data d2.
Proof.
  intros H1 H2 Heq.
  rewrite (parse_mijia_take_18 d1 H1), (parse_mijia_take_18 d2 H2), Heq.
  reflexivity.
Qed.

Lemma parse_mijia_first_18_witness :
  parse_mijia_sensor_data (mijia_sample ++ [x00])
  = parse_mijia_sensor_data (mijia_sample ++ [xff; xff]).
Proof.
  apply (parse_mijia_first_18 (mijia_sample ++ [x00]) (mijia_sample ++ [xff; xff])).
  - simpl. lia.
  - simpl. lia.
  - reflexivity.
Defined.

(** ** The advertisement parser: padding, repeated identifiers, truncation *)

(** The loop on a run of zero bytes: each zero is a record of length 0,
    the cursor moves one byte at a time, and the header read at the last
    zero raises. *)
Lemma parse_loop_zeros (n : nat) :
  forall (pre : list byte) (self : BleAdvParser) (fuel : nat),
    (S n <= fuel)%nat ->
    parse_loop fuel (pre ++ replicate (S n) x00) (length pre) self = Raises StructError.
Proof.
  induction n as [| n IH]; intros pre self fuel Hfuel.
  - destruct fuel as [| fuel]; [lia |]. rewrite parse_loop_unfold.
    cbn [replicate]. rewrite length_app. cbn [length].
    destruct (Nat.ltb_spec (length pre) (length pre + 1)) as [_ | ?]; [| lia].
    destruct (parse_iteration_cases (pre ++ [x00]) (length pre) self)
      as [[_ ->] | (l & t & Hlen & _)]; [reflexivity |].
    rewrite length_app in Hlen. cbn [length] in Hlen. lia.
  - destruct fuel as [| fuel]; [lia |]. rewrite parse_loop_unfold.
    change (replicate (S (S n)) x00) with (x00 :: x00 :: replicate n x00).
    rewrite length_app. cbn [length].
    destruct (Nat.ltb_spec (length pre) (length pre + S (S (length (replicate n x00)))))
      as [_ | ?]; [| lia].
    unfold parse_iteration. rewrite unpack_header_at. cbn [bind fst snd].
    change (0 <? byte_val x00 - 1) with false. cbv iota.
    change (Z.to_nat (byte_val x00 + 1)) with 1%nat.
    replace (pre ++ x00 :: x00 :: replicate n x00)
      with ((pre ++ [x00]) ++ replicate (S n) x00)
      by (rewrite <- app_assoc; reflexivity).
    replace (length pre + 1)%nat with (length (pre ++ [x00]))
      by (rewrite length_app; reflexivity).
    apply IH. lia.
Qed.

(** X6: an advertisement padded with zero bytes makes [parse] raise
    [struct.error]: after any complete records, a non-empty run of zero
    bytes up to the end of the buffer is walked one byte at a time and the
    header read at the last byte fails. *)
Theorem parse_zero_padding (rs : list tlv) (n : nat) (self : BleAdvParser) :
  Forall tlv_wf rs ->
  parse self (encode rs ++ replicate (S n) x00) = Raises StructError.
Proof.
  intros Hwf. unfold parse. rewrite (parse_loop_encode rs _ self Hwf).
  rewrite parse_loop_zeros; [reflexivity |].
  pose proof (length_encode rs). rewrite length_app, length_replicate. lia.
Qed.

Lemma parse_zero_padding_witness :
  parse BleAdvParser_new
    (encode [mk_tlv x02 x01 [x06]; mk_tlv x04 xff [x99; x04; x05]] ++ replicate 3 x00)
  = Raises StructError.
Proof.
  apply (parse_zero_padding [mk_tlv x02 x01 [x06]; mk_tlv x04 xff [x99; x04; x05]] 2).
  repeat constructor.
Defined.

(** [parse] on complete records that all carry their identifier: the
    elements kept and the two tables. *)
Lemma parse_tables (rs : list tlv) :
  Forall tlv_wf rs -> Forall has_identifier rs ->
  parse BleAdvParser_new (encode rs)
  = Returns (mk_BleAdvParser
               (foldl put_entry ∅ (filter (fun r => tlv_type r = xff) rs))
               (foldl put_entry ∅ (filter (fun r => tlv_type r = x16) rs))
               (captured rs)).
Proof.
  intros Hwf Hids. unfold parse. rewrite (parse_loop_complete rs _ Hwf). cbn [bind].
  unfold parse_ad_elements. cbn [extend_elements BleAdvParser_new ad_elements app].
  rewrite (parse_ad_elements_records rs _ Hids). reflexivity.
Qed.

Lemma foldl_put_entry_other (rs : list tlv) (k : Z) :
  forall table : gmap Z (list byte),
    Forall (fun r => tlv_identifier r <> k) rs ->
    foldl put_entry table rs !! k = table !! k.
Proof.
  induction rs as [| r rs IH]; intros table Hne; [reflexivity |].
  inversion Hne as [| ? ? Hr Hrs]; subst. cbn [foldl]. rewrite (IH _ Hrs).
  unfold put_entry. apply lookup_insert_ne. exact Hr.
Qed.

Lemma foldl_put_entry_last (rs1 rs2 : list tlv) (r : tlv) :
  Forall (fun r' => tlv_identifier r' <> tlv_identifier r) rs2 ->
  foldl put_entry ∅ (rs1 ++ r :: rs2) !! tlv_identifier r = Some (drop 2 (tlv_payload r)).
Proof.
  intros Hne. rewrite foldl_app. cbn [foldl].
  rewrite (foldl_put_entry_other rs2 _ _ Hne).
  unfold put_entry, tlv_identifier. apply lookup_insert_eq.
Qed.

(** X7: when several records of type [0xFF] (or of type [0x16]) have
    the same identifier, the table holds the payload of the last one:
    for complete records that all carry their identifier, a record after
    which no record of its type repeats its identifier is the one found
    under that identifier. *)
Theorem parse_last_identifier_wins (rs1 rs2 : list tlv) (r : tlv) :
  Forall tlv_wf (rs1 ++ r :: rs2) ->
  Forall has_identifier (rs1 ++ r :: rs2) ->
  Forall (fun r' => tlv_type r' = tlv_type r -> tlv_identifier r' <> tlv_identifier r) rs2 ->
  exists p,
    parse BleAdvParser_new (encode (rs1 ++ r :: rs2)) = Returns p
    /\ (tlv_type r = xff ->
        mfg_data p !! tlv_identifier r = Some (drop 2 (tlv_payload r)))
    /\ (tlv_type r = x16 ->
        service_data p !! tlv_identifier r = Some (drop 2 (tlv_payload r))).
Proof.
  intros Hwf Hids Hlast. rewrite (parse_tables _ Hwf Hids).
  eexists. split; [reflexivity |]. cbn [mfg_data service_data].
  split; intros Hty; rewrite filter_app, filter_cons, decide_True by exact Hty;
    apply foldl_put_entry_last; apply Forall_forall; intros r' Hr';
    apply list_elem_of_filter in Hr' as [Hty' Hin];
    rewrite Forall_forall in Hlast; apply (Hlast r' Hin); congruence.
Qed.

Lemma parse_last_identifier_wins_witness :
  exists p,
    parse BleAdvParser_new
      (encode ([mk_tlv x04 xff [x99; x04; x01]] ++ mk_tlv x04 xff [x99; x04; x02] :: []))
    = Returns p
    /\ (xff = xff -> mfg_data p !! 1177 = Some [x02])
    /\ (xff = x16 -> service_data p !! 1177 = Some [x02]).
Proof.
  apply (parse_last_identifier_wins [mk_tlv x04 xff [x99; x04; x01]] []
           (mk_tlv x04 xff [x99; x04; x02])).
  - repeat constructor.
  - repeat constructor; intros _; cbn; lia.
  - constructor.
Defined.

Lemma filter_relevant (rs : list tlv) (t : byte) :
  t = xff \/ t = x16 ->
  filter (fun r => tlv_type r = t) (filter tlv_relevant rs)
  = filter (fun r => tlv_type r = t) rs.
Proof.
  intros Ht. rewrite list_filter_filter. apply list_filter_iff.
  intros r. unfold tlv_relevant. split; [tauto |].
  intros Hr. split; [exact Hr |]. rewrite Hr. exact Ht.
Qed.

(** X8: records of other types than [0xFF] and [0x16] leave the tables
    as they are: for complete records that all carry their identifier,
    [parse] fills the same two tables whether those other records are
    in the buffer or not. *)
Theorem parse_ignores_other_types (rs : list tlv) :
  Forall tlv_wf rs -> Forall has_identifier rs ->
  exists p p',
    parse BleAdvParser_new (encode rs) = Returns p
    /\ parse BleAdvParser_new (encode (filter tlv_relevant rs)) = Returns p'
    /\ mfg_data p = mfg_data p'
    /\ service_data p = service_data p'.
Proof.
  intros Hwf Hids.
  assert (Hwf' : Forall tlv_wf (filter tlv_relevant rs)).
  { rewrite Forall_forall in Hwf. apply Forall_forall.
    intros r [_ Hin]%list_elem_of_filter. apply Hwf, Hin. }
  assert (Hids' : Forall has_identifier (filter tlv_relevant rs)).
  { rewrite Forall_forall in Hids. apply Forall_forall.
    intros r [_ Hin]%list_elem_of_filter. apply Hids, Hin. }
  rewrite (parse_tables _ Hwf Hids), (parse_tables _ Hwf' Hids').
  eexists _, _. split; [reflexivity |]. split; [reflexivity |].
  cbn [mfg_data service_data].
  rewrite !filter_relevant by tauto. split; reflexivity.
Qed.

Lemma parse_ignores_other_types_witness :
  exists p p',
    parse BleAdvParser_new
      (encode [mk_tlv x02 x01 [x06]; mk_tlv x04 xff [x99; x04; x05]; mk_tlv x01 x09 []])
    = Returns p
    /\ parse BleAdvParser_new
         (encode (filter tlv_relevant
                    [mk_tlv x02 x01 [x06]; mk_tlv x04 xff [x99; x04; x05]; mk_tlv x01 x09 []]))
       = Returns p'
    /\ mfg_data p = mfg_data p'
    /\ service_data p = service_data p'.
Proof.
  apply (parse_ignores_other_types
           [mk_tlv x02 x01 [x06]; mk_tlv x04 xff [x99; x04; x05]; mk_tlv x01 x09 []]).
  - repeat constructor.
  - repeat (constructor;
            [unfold has_identifier; cbn; intros [H | H]; first [discriminate H | lia] |]).
    constructor.
Defined.

(** X9: a last record whose length byte claims more payload than the
    buffer has is read with the bytes that are there: when at least one
    payload byte is present, [parse] gives what it gives on the buffer in
    which the length byte of that record is the true one. *)
Theorem parse_truncated_last_record (rs : list tlv) (l l' t : byte) (partial : list byte) :
  Forall tlv_wf rs ->
  partial <> [] ->
  byte_val l' = Z.of_nat (1 + length partial) ->
  Z.of_nat (1 + length partial) <= byte_val l ->
  parse BleAdvParser_new (encode rs ++ l :: t :: partial)
  = parse BleAdvParser_new (encode (rs ++ [mk_tlv l' t partial])).
Proof.
  intros Hwf Hne Hl' Hl.
  assert (Hwf' : Forall tlv_wf (rs ++ [mk_tlv l' t partial])).
  { apply Forall_app. split; [exact Hwf |]. constructor; [exact Hl' | constructor]. }
  unfold parse. rewrite (parse_loop_complete _ _ Hwf').
  rewrite (parse_loop_encode rs _ _ Hwf).
  pose proof (length_encode rs) as Hle.
  rewrite parse_loop_unfold, length_app. cbn [length].
  destruct (Nat.ltb_spec (length (encode rs)) (length (encode rs) + S (S (length partial))))
    as [_ | ?]; [| lia].
  destruct (length (encode rs) + S (S (length partial)) - length rs)%nat
    as [| fuel] eqn:Hfuel; [lia |].
  unfold parse_iteration. rewrite unpack_header_at. cbn [bind fst snd].
  destruct partial as [| b partial]; [contradiction |]. cbn [length] in Hl.
  destruct (Z.ltb_spec 0 (byte_val l - 1)) as [_ | ?]; [| lia].
  rewrite parse_loop_done
    by (rewrite length_app; cbn [length]; lia).
  cbn [bind]. f_equal.
  unfold captured. rewrite flat_map_app. cbn [flat_map captured_one tlv_payload tlv_type].
  rewrite app_nil_r.
  unfold extend_elements, BleAdvParser_new. cbn [mfg_data service_data ad_elements app].
  do 4 f_equal. unfold slice.
  rewrite drop_app_add. cbn [drop].
  apply take_ge. cbn [length]. lia.
Qed.

Lemma parse_truncated_last_record_witness :
  parse BleAdvParser_new (encode [mk_tlv x02 x01 [x06]] ++ [x1b; xff; x99; x04; x05])
  = parse BleAdvParser_new (encode ([mk_tlv x02 x01 [x06]] ++ [mk_tlv x04 xff [x99; x04; x05]])).
Proof.
  apply (parse_truncated_last_record [mk_tlv x02 x01 [x06]] x1b x04 xff [x99; x04; x05]).
  - repeat constructor.
  - discriminate.
  - reflexivity.
  - vm_compute. discriminate.
Defined.

(** The loop keeps the bounds of the kept elements and leaves the tables
    alone. *)
Lemma parse_loop_bounds (data : list byte) (fuel : nat) :
  forall (offset : nat) (self self' : BleAdvParser),
    Forall element_ok (ad_elements self) ->
    parse_loop fuel data offset self = Returns self' ->
    Forall element_ok (ad_elements self')
    /\ mfg_data self' = mfg_data self
    /\ service_data self' = service_data self.
Proof.
  induction fuel as [| fuel IH]; intros offset self self' Hok Hret;
    rewrite parse_loop_unfold in Hret;
    destruct (offset <? length data)%nat;
    try discriminate;
    try (injection Hret as <-; split; [assumption |]; split; reflexivity).
  destruct (parse_iteration_cases data offset self)
    as [[_ Hit] | (l & t & _ & _ & _ & Hit)]; rewrite Hit in Hret; [discriminate |].
  cbn [bind fst snd] in Hret.
  pose proof (byte_val_range l) as Hl. pose proof (byte_val_range t) as Ht.
  destruct (0 <? byte_val l - 1).
  - apply IH in Hret as (Hok' & Hm & Hs);
      [split; [exact Hok' |]; split; [exact Hm | exact Hs] |].
    cbn [append_element ad_elements]. apply Forall_app. split; [exact Hok |].
    constructor; [| constructor]. split; [exact Ht |].
    cbn [ad_data]. unfold slice. rewrite length_take. lia.
  - apply (IH _ _ _ Hok Hret).
Qed.

(** Filling the tables keeps their bounds. *)
Lemma parse_ad_elements_from_bounds (es : list ad_element) :
  forall self self' : BleAdvParser,
    Forall element_ok es ->
    table_ok (mfg_data self) -> table_ok (service_data self) ->
    parse_ad_elements_from es self = Returns self' ->
    table_ok (mfg_data self') /\ table_ok (service_data self')
    /\ ad_elements self' = ad_elements self.
Proof.
  induction es as [| e es IH]; intros self self' Hes Hm Hs Hret.
  - injection Hret as <-. split; [exact Hm |]. split; [exact Hs | reflexivity].
  - inversion Hes as [| ? ? [_ He] Hes']; subst.
    cbn [parse_ad_elements_from] in Hret. unfold parse_ad_element in Hret.
    rewrite unpack_identifier in Hret.
    assert (Hput : (2 <= length (ad_data e))%nat ->
                   forall table, table_ok table ->
                   table_ok (<[uint Little (take 2 (ad_data e)) := slice_from (ad_data e) 2]> table)).
    { intros Hlen table Htable. apply map_Forall_insert_2; [| exact Htable].
      pose proof (uint_range Little (take 2 (ad_data e))) as Hu.
      rewrite length_take, Nat.min_l in Hu by exact Hlen.
      change (256 ^ Z.of_nat 2) with 65536 in Hu.
      unfold slice_from. rewrite length_drop. lia. }
    destruct (ad_type e =? 255); [| destruct (ad_type e =? 22)].
    + destruct (Nat.ltb_spec (length (ad_data e)) 2); [discriminate |].
      cbn [bind] in Hret. apply IH in Hret; [exact Hret | exact Hes' | | exact Hs].
      cbn [mfg_data]. apply Hput; assumption.
    + destruct (Nat.ltb_spec (length (ad_data e)) 2); [discriminate |].
      cbn [bind] in Hret. apply IH in Hret; [exact Hret | exact Hes' | exact Hm |].
      cbn [service_data]. apply Hput; assumption.
    + cbn [bind] in Hret. apply (IH _ _ Hes' Hm Hs Hret).
Qed.

(** X10: whatever the buffer, when [parse] returns, every element it
    kept has its type in [0, 255] and at most 254 data bytes, and both
    tables have keys in [0, 65535] with at most 252 bytes under each. *)
Theorem parse_bounds (data : list byte) (p : BleAdvParser) :
  parse BleAdvParser_new data = Returns p ->
  Forall element_ok (ad_elements p)
  /\ table_ok (mfg_data p)
  /\ table_ok (service_data p).
Proof.
  unfold parse. intros Hret.
  destruct (parse_loop (length data) data 0 BleAdvParser_new) as [self | |] eqn:Hloop;
    try discriminate.
  cbn [bind] in Hret.
  apply parse_loop_bounds in Hloop as (Hes & Hm & Hs); [| constructor].
  unfold parse_ad_elements in Hret.
  apply parse_ad_elements_from_bounds in Hret as (Hm' & Hs' & Hes'); [| exact Hes | |].
  - rewrite Hes'. split; [exact Hes |]. split; [exact Hm' | exact Hs'].
  - rewrite Hm. apply map_Forall_empty.
  - rewrite Hs. apply map_Forall_empty.
Qed.

Lemma parse_bounds_witness :
  Forall element_ok [mk_ad_element 255 [x99; x04; x07]]
  /\ table_ok {[ 1177 := [x07] ]}
  /\ table_ok ∅.
Proof.
  exact (parse_bounds [x04; xff; x99; x04; x07]
           (mk_BleAdvParser {[ 1177 := [x07] ]} ∅ [mk_ad_element 255 [x99; x04; x07]])
           eq_refl).
Defined.

(** ** The aggregator on any sensor list *)

(** What the loop body does to one sensor, case by case. *)
Lemma update_sensor_cases (addr : string) (now : Q) (s : sensor) (data : pydict pyval) :
  (casefold (address s) <> casefold addr
   /\ update_sensor addr now s data = (s, data, []))
  \/ (casefold (address s) = casefold addr
      /\ ~ (TX_INTERVAL <= now - last_sent s)%Q
      /\ update_sensor addr now s data
         = (mk_sensor (last_sent s) (dict_update (accrued_data s) data)
                      (address s) (label s) (tags s), data, []))
  \/ (casefold (address s) = casefold addr
      /\ (TX_INTERVAL <= now - last_sent s)%Q
      /\ update_sensor addr now s data
         = (mk_sensor now [] (address s) (label s) (tags s),
            dict_update (accrued_data s) data,
            [json_body (dict_update (accrued_data s) data) (tags s)])).
Proof.
  unfold update_sensor.
  destruct (String.eqb_spec (casefold (address s)) (casefold addr)) as [Heq | Hne].
  - right. destruct (Qle_bool TX_INTERVAL (now - last_sent s)) eqn:Hle.
    + right. apply Qle_bool_iff in Hle. split; [exact Heq |]. split; [exact Hle | reflexivity].
    + left. split; [exact Heq |]. split; [| reflexivity].
      intros Hle'. apply Qle_bool_iff in Hle'. congruence.
  - left. split; [exact Hne | reflexivity].
Qed.

Lemma update_loop_cons (s : sensor) (rest : list sensor) (addr : string)
    (data : pydict pyval) (now : Q) :
  update_loop (s :: rest) addr data now
  = ((update_sensor addr now s data).1.1
       :: (update_loop rest addr (update_sensor addr now s data).1.2 now).1,
     (update_sensor addr now s data).2
       ++ (update_loop rest addr (update_sensor addr now s data).1.2 now).2).
Proof.
  cbn [update_loop]. destruct (update_sensor addr now s data) as [[s' data'] out].
  cbn [fst snd]. destruct (update_loop rest addr data' now). reflexivity.
Qed.

(** X11: [update_sensor_data] never changes the configuration: on any
    sensor list, the sensors after a call are as many as before and have,
    one by one, the addresses, labels and tags they had. *)
Theorem update_keeps_configuration (sensors : list sensor) (addr : string)
    (data : pydict pyval) (now : Q) :
  address <$> (update_sensor_data sensors addr data now).1 = address <$> sensors
  /\ label <$> (update_sensor_data sensors addr data now).1 = label <$> sensors
  /\ tags <$> (update_sensor_data sensors addr data now).1 = tags <$> sensors.
Proof.
  unfold update_sensor_data. revert data.
  induction sensors as [| s rest IH]; intros data.
  - split; [| split]; reflexivity.
  - rewrite update_loop_cons. cbn [fst snd fmap list_fmap].
    destruct (IH (update_sensor addr now s data).1.2) as (Ha & Hl & Ht).
    change (list_fmap sensor string address) with (fmap (M:=list) address) in *.
    change (list_fmap sensor string label) with (fmap (M:=list) label) in *.
    change (list_fmap sensor (pydict string) tags) with (fmap (M:=list) tags) in *.
    rewrite Ha, Hl, Ht.
    destruct (update_sensor_cases addr now s data)
      as [[_ ->] | [(_ & _ & ->) | (_ & _ & ->)]];
      split; [| split | | split | | split]; reflexivity.
Qed.

(** X12: [last_sent] never goes back: after a call every sensor has the
    [last_sent] it had, or the clock reading of the call, which is then at
    least 30 later, and in that case its accrued data is empty. *)
Theorem update_last_sent_monotone (sensors : list sensor) (addr : string)
    (data : pydict pyval) (now : Q) :
  Forall2 (fun s s' =>
             last_sent s' = last_sent s
             \/ (last_sent s' = now /\ accrued_data s' = []
                 /\ (last_sent s + 30 <= last_sent s')%Q))
          sensors (update_sensor_data sensors addr data now).1.
Proof.
  unfold update_sensor_data. revert data.
  induction sensors as [| s rest IH]; intros data; [constructor |].
  rewrite update_loop_cons. cbn [fst snd]. constructor; [| apply IH].
  destruct (update_sensor_cases addr now s data)
    as [[_ ->] | [(_ & _ & ->) | (_ & Hdue & ->)]]; cbn [fst last_sent accrued_data].
  - left. reflexivity.
  - left. reflexivity.
  - right. split; [reflexivity |]. split; [reflexivity |].
    unfold TX_INTERVAL in Hdue. lra.
Qed.

Lemma update_sensor_casefold (addr addr' : string) (now : Q) (s : sensor)
    (data : pydict pyval) :
  casefold addr = casefold addr' ->
  update_sensor addr now s data = update_sensor addr' now s data.
Proof. intros Heq. unfold update_sensor. rewrite Heq. reflexivity. Qed.

Lemma casefold_ascii_idempotent (c : ascii) :
  casefold_ascii (casefold_ascii c) = casefold_ascii c.
Proof.
  destruct c as [[] [] [] [] [] [] [] []]; reflexivity.
Qed.

Lemma casefold_idempotent (s : string) : casefold (casefold s) = casefold s.
Proof.
  induction s as [| c s IH]; [reflexivity |].
  cbn [casefold]. rewrite casefold_ascii_idempotent, IH. reflexivity.
Qed.

(** X13: the address is compared without regard to case: two addresses
    with the same case-folding give the same call, and so does an address
    and its case-folding. *)
Theorem update_case_insensitive (sensors : list sensor) (addr addr' : string)
    (data : pydict pyval) (now : Q) :
  casefold addr = casefold addr' ->
  update_sensor_data sensors addr data now = update_sensor_data sensors addr' data now
  /\ update_sensor_data sensors (casefold addr) data now
     = update_sensor_data sensors addr data now.
Proof.
  intros Heq.
  assert (Hgen : forall a a', casefold a = casefold a' ->
                   forall d, update_loop sensors a d now = update_loop sensors a' d now).
  { intros a a' Ha. induction sensors as [| s rest IH]; intros d; [reflexivity |].
    rewrite !update_loop_cons, (update_sensor_casefold a a' now s d Ha), IH. reflexivity. }
  unfold update_sensor_data. split.
  - apply Hgen, Heq.
  - apply Hgen, casefold_idempotent.
Qed.

Lemma update_case_insensitive_witness :
  update_sensor_data SENSOR_MAP_initial "e6:99:94:26:c5:c3" [("rssi"%string, PyFloat (-70))] 5
  = update_sensor_data SENSOR_MAP_initial "E6:99:94:26:C5:c3" [("rssi"%string, PyFloat (-70))] 5
  /\ update_sensor_data SENSOR_MAP_initial (casefold "e6:99:94:26:c5:c3")
       [("rssi"%string, PyFloat (-70))] 5
     = update_sensor_data SENSOR_MAP_initial "e6:99:94:26:c5:c3"
         [("rssi"%string, PyFloat (-70))] 5.
Proof.
  apply (update_case_insensitive SENSOR_MAP_initial "e6:99:94:26:c5:c3" "E6:99:94:26:C5:c3").
  reflexivity.
Defined.

Lemma update_loop_clocked_no_match (sensors : list sensor) (addr : string)
    (data : pydict pyval) (clock : nat -> Q) (reads : nat) :
  Forall (fun s => casefold (address s) <> casefold addr) sensors ->
  update_loop_clocked sensors addr data clock reads = (sensors, [], reads).
Proof.
  induction 1 as [| s rest Hs _ IH]; [reflexivity |].
  cbn [update_loop_clocked].
  destruct (String.eqb_spec (casefold (address s)) (casefold addr)); [contradiction |].
  rewrite IH. reflexivity.
Qed.

Lemma update_loop_clocked_skip (pre rest : list sensor) (addr : string)
    (data : pydict pyval) (clock : nat -> Q) (reads : nat) :
  Forall (fun s => casefold (address s) <> casefold addr) pre ->
  update_loop_clocked (pre ++ rest) addr data clock reads
  = (pre ++ (update_loop_clocked rest addr data clock reads).1.1,
     (update_loop_clocked rest addr data clock reads).1.2,
     (update_loop_clocked rest addr data clock reads).2).
Proof.
  induction 1 as [| s pre Hs _ IH].
  - cbn [app]. destruct (update_loop_clocked rest addr data clock reads) as [[? ?] ?].
    reflexivity.
  - cbn [app update_loop_clocked].
    destruct (String.eqb_spec (casefold (address s)) (casefold addr)); [contradiction |].
    rewrite IH. reflexivity.
Qed.

Lemma update_loop_clocked_match (s : sensor) (rest : list sensor) (addr : string)
    (data : pydict pyval) (clock : nat -> Q) (reads : nat) :
  casefold (address s) = casefold addr ->
  update_loop_clocked (s :: rest) addr data clock reads
  = ((update_sensor addr (clock reads) s data).1.1
       :: (update_loop_clocked rest addr (update_sensor addr (clock reads) s data).1.2
             clock (S reads)).1.1,
     (update_sensor addr (clock reads) s data).2
       ++ (update_loop_clocked rest addr (update_sensor addr (clock reads) s data).1.2
             clock (S reads)).1.2,
     (update_loop_clocked rest addr (update_sensor addr (clock reads) s data).1.2
        clock (S reads)).2).
Proof.
  intros Hmatch. cbn [update_loop_clocked]. rewrite Hmatch, String.eqb_refl.
  destruct (update_sensor addr (clock reads) s data) as [[s' data'] out]. cbn [fst snd].
  destruct (update_loop_clocked rest addr data' clock (S reads)) as [[? ?] ?].
  reflexivity.
Qed.

(** With at most one matching entry, as in the [SENSOR_MAP] of the source,
    the clock is read at most once and the loop is the loop with that one
    reading. *)
Lemma update_loop_clocked_single (pre post : list sensor) (s : sensor) (addr : string)
    (data : pydict pyval) (clock : nat -> Q) (reads : nat) :
  Forall (fun s => casefold (address s) <> casefold addr) pre ->
  Forall (fun s => casefold (address s) <> casefold addr) post ->
  casefold (address s) = casefold addr ->
  update_loop_clocked (pre ++ s :: post) addr data clock reads
  = ((update_sensor_data (pre ++ s :: post) addr data (clock reads)).1,
     (update_sensor_data (pre ++ s :: post) addr data (clock reads)).2,
     S reads).
Proof.
  intros Hpre Hpost Hmatch. unfold update_sensor_data.
  rewrite (update_loop_clocked_skip _ _ _ _ _ _ Hpre), (update_loop_skip _ _ _ _ _ Hpre).
  rewrite (update_loop_clocked_match _ _ _ _ _ _ Hmatch), update_loop_cons.
  rewrite (update_loop_clocked_no_match _ _ _ _ _ Hpost), (update_loop_no_match _ _ _ _ Hpost).
  reflexivity.
Qed.

(** X14: when two entries of the sensor list match the address, the loop
    goes on after the first and reads the clock again for the second. If
    the first is due at its reading, its flush rebinds [data]: the second
    entry, not due at its own reading, is then merged with everything the
    first had accrued, not with the incoming batch alone. *)
Theorem update_two_matching_entries_clocked (pre mid post : list sensor) (s1 s2 : sensor)
    (addr : string) (data : pydict pyval) (clock : nat -> Q) (reads : nat) :
  Forall (fun s => casefold (address s) <> casefold addr) pre ->
  Forall (fun s => casefold (address s) <> casefold addr) mid ->
  Forall (fun s => casefold (address s) <> casefold addr) post ->
  casefold (address s1) = casefold addr ->
  casefold (address s2) = casefold addr ->
  (TX_INTERVAL <= clock reads - last_sent s1)%Q ->
  ~ (TX_INTERVAL <= clock (S reads) - last_sent s2)%Q ->
  update_loop_clocked (pre ++ s1 :: mid ++ s2 :: post) addr data clock reads
  = (pre ++ mk_sensor (clock reads) [] (address s1) (label s1) (tags s1)
       :: mid ++ mk_sensor (last_sent s2)
                   (dict_update (accrued_data s2) (dict_update (accrued_data s1) data))
                   (address s2) (label s2) (tags s2)
       :: post,
     [json_body (dict_update (accrued_data s1) data) (tags s1)],
     S (S reads)).
Proof.
  intros Hpre Hmid Hpost H1 H2 Hdue1 Hin2.
  rewrite (update_loop_clocked_skip _ _ _ _ _ _ Hpre).
  rewrite (update_loop_clocked_match _ _ _ _ _ _ H1).
  destruct (update_sensor_cases addr (clock reads) s1 data)
    as [[Hne _] | [(_ & Hin & _) | (_ & _ & ->)]]; [contradiction | contradiction |].
  cbn [fst snd].
  rewrite (update_loop_clocked_skip _ _ _ _ _ _ Hmid).
  rewrite (update_loop_clocked_match _ _ _ _ _ _ H2).
  destruct (update_sensor_cases addr (clock (S reads)) s2 (dict_update (accrued_data s1) data))
    as [[Hne _] | [(_ & _ & ->) | (_ & Hdue & _)]]; [contradiction | | contradiction].
  cbn [fst snd]. rewrite (update_loop_clocked_no_match _ _ _ _ _ Hpost). reflexivity.
Qed.

Lemma update_two_matching_entries_clocked_witness :
  update_loop_clocked
    ([] ++ mk_sensor 0 [("temperature"%string, PyInt 1)] "AA" "{}" []
        :: [] ++ mk_sensor 20 [] "aa" "{}" [] :: [])
    "aa" [("rssi"%string, PyInt 2)] (fun k : nat => match k with O => 31%Q | S _ => 32%Q end) 0
  = ([] ++ mk_sensor ((fun k : nat => match k with O => 31%Q | S _ => 32%Q end) 0%nat) [] "AA" "{}" []
        :: [] ++ mk_sensor 20 [("temperature"%string, PyInt 1); ("rssi"%string, PyInt 2)]
                   "aa" "{}" []
        :: [],
     [json_body [("temperature"%string, PyInt 1); ("rssi"%string, PyInt 2)] []],
     2%nat).
Proof.
  apply (update_two_matching_entries_clocked [] [] []
           (mk_sensor 0 [("temperature"%string, PyInt 1)] "AA" "{}" [])
           (mk_sensor 20 [] "aa" "{}" []) "aa" [("rssi"%string, PyInt 2)]
           (fun k : nat => match k with O => 31%Q | S _ => 32%Q end) 0%nat).
  - constructor.
  - constructor.
  - constructor.
  - reflexivity.
  - reflexivity.
  - cbn. unfold TX_INTERVAL. lra.
  - cbn. unfold TX_INTERVAL. lra.
Defined.

(** X15: on any sensor list whose accrued data have distinct keys, a call
    keeps them so, and every batch it hands to the sink has one point per
    measurement name, all with the tags of one sensor that matches the
    address. *)
Theorem update_batches_well_formed (sensors : list sensor) (addr : string)
    (data : pydict pyval) (now : Q) :
  Forall (fun s => NoDup (dict_keys (accrued_data s))) sensors ->
  Forall (fun s => NoDup (dict_keys (accrued_data s)))
         (update_sensor_data sensors addr data now).1
  /\ Forall (fun batch =>
               NoDup (measurement <$> batch)
               /\ exists s, s ∈ sensors
                            /\ casefold (address s) = casefold addr
                            /\ forall p, p ∈ batch -> point_tags p = tags s)
            (update_sensor_data sensors addr data now).2.
Proof.
  unfold update_sensor_data. revert data.
  induction sensors as [| s rest IH]; intros data Hinv.
  - split; constructor.
  - inversion Hinv as [| ? ? Hs Hrest]; subst.
    rewrite update_loop_cons. cbn [fst snd].
    destruct (IH (update_sensor addr now s data).1.2 Hrest) as [Hacc Hout].
    assert (Hout' : Forall (fun batch =>
               NoDup (measurement <$> batch)
               /\ exists s0, s0 ∈ s :: rest
                            /\ casefold (address s0) = casefold addr
                            /\ forall p, p ∈ batch -> point_tags p = tags s0)
              (update_loop rest addr (update_sensor addr now s data).1.2 now).2).
    { eapply Forall_impl; [exact Hout |]. intros batch (Hnd & s0 & Hin & Hs0).
      split; [exact Hnd |]. exists s0. split; [apply list_elem_of_further, Hin | exact Hs0]. }
    pose proof (dict_update_NoDup data _ Hs) as Hmerged.
    destruct (update_sensor_cases addr now s data)
      as [[_ Heq] | [(_ & _ & Heq) | (Hmatch & _ & Heq)]];
      rewrite Heq in *; cbn [fst snd app] in *.
    + split; [constructor; assumption | exact Hout'].
    + split; [constructor; assumption | exact Hout'].
    + split; [constructor; [apply NoDup_nil_2 | assumption] |].
      constructor; [| exact Hout'].
      split; [rewrite (json_body_measurements _ _ Hmerged); exact Hmerged |].
      exists s. split; [apply list_elem_of_here |]. split; [exact Hmatch |].
      intros p Hp. apply (elem_of_json_body _ _ _ Hmerged) in Hp as [_ Htags]. exact Htags.
Qed.

Lemma update_batches_well_formed_witness :
  Forall (fun s => NoDup (dict_keys (accrued_data s)))
         (update_sensor_data SENSOR_MAP_initial "4c:65:a8:d4:03:e3"
            [("temperature"%string, PyFloat 20.1)] 31).1
  /\ Forall (fun batch =>
               NoDup (measurement <$> batch)
               /\ exists s, s ∈ SENSOR_MAP_initial
                            /\ casefold (address s) = casefold "4c:65:a8:d4:03:e3"
                            /\ forall p, p ∈ batch -> point_tags p = tags s)
            (update_sensor_data SENSOR_MAP_initial "4c:65:a8:d4:03:e3"
               [("temperature"%string, PyFloat 20.1)] 31).2.
Proof.
  apply (update_batches_well_formed SENSOR_MAP_initial "4c:65:a8:d4:03:e3").
  repeat constructor.
Defined.

(** ** The main loop: what leaves it, what it skips *)

Lemma parse_ruuvi_returns (data : list byte) :
  exists o, parse_ruuvi_mfg_data data = Returns o.
Proof.
  destruct (Nat.le_gt_cases 15 (length data)) as [Hlen | Hlen];
    [destruct (Z.eq_dec (byte_val (nth 0 data x00)) 5) as [Hfmt | Hfmt] |].
  - destruct (parse_ruuvi_format5 data Hlen Hfmt) as (t & h & p & w & _ & _ & _ & _ & ->).
    eexists. reflexivity.
  - unfold parse_ruuvi_mfg_data. destruct (length data <? 1)%nat; [eexists; reflexivity |].
    destruct (Z.eqb_spec (byte_val (nth 0 data x00)) 5); [contradiction |].
    eexists. reflexivity.
  - unfold parse_ruuvi_mfg_data. destruct (length data <? 1)%nat; [eexists; reflexivity |].
    destruct (Nat.leb_spec 15 (length data)); [lia |].
    rewrite andb_false_r. eexists. reflexivity.
Qed.

Lemma parse_mijia_returns_or_raises (data : list byte) :
  (exists o, parse_mijia_sensor_data data = Returns o)
  \/ parse_mijia_sensor_data data = Raises StructError.
Proof.
  destruct (Nat.le_gt_cases 12 (length data)) as [Hlen | Hlen].
  - destruct (parse_mijia_decodes data Hlen) as [Hraise Hret].
    destruct (Nat.le_gt_cases (mijia_needed (nth 11 data x00)) (length data)) as [Hok | Hshort].
    + left. destruct (Hret Hok) as (d & -> & _). eexists. reflexivity.
    + right. apply Hraise, Hshort.
  - left. unfold parse_mijia_sensor_data.
    destruct (Nat.ltb_spec (length data) 12); [eexists; reflexivity | lia].
Qed.

(** One [if ... in ...:] block ends normally or with [struct.error] or
    [TypeError], when its decoder returns or raises [struct.error]. *)
Lemma feed_outcomes (decoder : list byte -> outcome (option (pydict pyval)))
    (payload : option (list byte)) (addr : string) (rssi : float) (now : Q) (w : world) :
  (forall bytes, (exists o, decoder bytes = Returns o) \/ decoder bytes = Raises StructError) ->
  (feed decoder payload addr rssi now w).2 = Returns tt
  \/ (feed decoder payload addr rssi now w).2 = Raises StructError
  \/ (feed decoder payload addr rssi now w).2 = Raises TypeError.
Proof.
  intros Hdec. unfold feed. destruct payload as [bytes |]; [| left; reflexivity].
  destruct (Hdec bytes) as [[[d |] ->] | ->]; cbn [bind set_rssi].
  - destruct (update_sensor_data (SENSOR_MAP w) addr (dict_set "rssi" (PyFloat rssi) d) now).
    left. reflexivity.
  - right. right. reflexivity.
  - right. left. reflexivity.
Qed.

Lemma main_body_outcomes (w : world) (r : record) :
  (main_body w r).2 = Returns tt
  \/ (main_body w r).2 = Raises StructError
  \/ (main_body w r).2 = Raises TypeError.
Proof.
  unfold main_body.
  destruct (parse_total BleAdvParser_new (rec_data r)) as [[p ->] | ->];
    [| right; left; reflexivity].
  pose proof (feed_outcomes parse_ruuvi_mfg_data (mfg_data p !! RUUVI_MFG_ID)
                (rec_address r) (rec_rssi r) (rec_now_ruuvi r) w
                (fun bytes => or_introl (parse_ruuvi_returns bytes))) as Hr.
  destruct (feed parse_ruuvi_mfg_data (mfg_data p !! RUUVI_MFG_ID)
              (rec_address r) (rec_rssi r) (rec_now_ruuvi r) w) as [w1 r1].
  cbn [snd] in Hr. destruct Hr as [-> | [-> | ->]].
  - apply (feed_outcomes parse_mijia_sensor_data). apply parse_mijia_returns_or_raises.
  - right. left. reflexivity.
  - right. right. reflexivity.
Qed.

(** X16: from [p.parse(data)] on, nothing that the [try] block of [main]
    raises is caught: a pass ends normally or with [struct.error] or
    [TypeError], neither of which has a handler, so the pass with its
    handlers is the pass without them, and an exception ends the loop. *)
Theorem main_handlers_catch_nothing (w : world) (r : record) :
  main_iteration w r = main_body w r
  /\ ((main_body w r).2 = Returns tt
      \/ (main_body w r).2 = Raises StructError
      \/ (main_body w r).2 = Raises TypeError).
Proof.
  split; [| apply main_body_outcomes].
  unfold main_iteration. pose proof (main_body_outcomes w r) as Hout.
  destruct (main_body w r) as [w' res]. cbn [snd] in Hout.
  destruct Hout as [-> | [-> | ->]]; reflexivity.
Qed.

(** X17: an advertisement whose manufacturer data for the Ruuvi
    identifier is empty makes the decoder return [None], the assignment
    of the rssi raises [TypeError], and the loop ends with the sensors
    untouched; so does, without Ruuvi data, service data for the Mijia
    identifier shorter than 12 bytes. *)
Theorem main_none_is_type_error (w : world) (r : record) (p : BleAdvParser) :
  parse BleAdvParser_new (rec_data r) = Returns p ->
  (mfg_data p !! RUUVI_MFG_ID = Some [] ->
   main_iteration w r = (w, Raises TypeError))
  /\ (forall payload : list byte,
        mfg_data p !! RUUVI_MFG_ID = None ->
        service_data p !! MIJIA_SVC_ID = Some payload ->
        (length payload < 12)%nat ->
        main_iteration w r = (w, Raises TypeError)).
Proof.
  intros Hparse. unfold main_iteration, main_body. rewrite Hparse. split.
  - intros ->. reflexivity.
  - intros payload -> -> Hshort. cbn [feed].
    unfold parse_mijia_sensor_data.
    destruct (Nat.ltb_spec (length payload) 12); [reflexivity | lia].
Qed.

Lemma main_none_is_type_error_witness :
  main_iteration (mk_world SENSOR_MAP_initial [])
    (mk_record "E6:99:94:26:C5:C3" (-70)%float [x03; xff; x99; x04] 100 100)
  = (mk_world SENSOR_MAP_initial [], Raises TypeError).
Proof.
  apply (main_none_is_type_error (mk_world SENSOR_MAP_initial [])
           (mk_record "E6:99:94:26:C5:C3" (-70)%float [x03; xff; x99; x04] 100 100)
           (mk_BleAdvParser {[ RUUVI_MFG_ID := [] ]} ∅ [mk_ad_element 255 [x99; x04]])).
  - reflexivity.
  - reflexivity.
Defined.

Lemma foldl_put_entry_absent (rs : list tlv) (k : Z) :
  Forall (fun r => tlv_identifier r <> k) rs ->
  foldl put_entry ∅ rs !! k = None.
Proof.
  intros Hne. rewrite (foldl_put_entry_other rs k ∅ Hne). apply lookup_empty.
Qed.

(** X18: an advertisement of complete records in which every record of
    type [0xFF] or [0x16] has at least two payload bytes, no record of
    type [0xFF] has the Ruuvi identifier and no record of type [0x16] has
    the Mijia identifier changes nothing: the pass ends normally with the
    sensors and the sent batches as they were. *)
Theorem main_foreign_advertisement (w : world) (addr : string) (rssi : float)
    (rs : list tlv) (t1 t2 : Q) :
  Forall tlv_wf rs -> Forall has_identifier rs ->
  Forall (fun r => tlv_type r = xff -> tlv_identifier r <> RUUVI_MFG_ID) rs ->
  Forall (fun r => tlv_type r = x16 -> tlv_identifier r <> MIJIA_SVC_ID) rs ->
  main_iteration w (mk_record addr rssi (encode rs) t1 t2) = (w, Returns tt).
Proof.
  intros Hwf Hids Hm Hs. unfold main_iteration, main_body. cbn [rec_data].
  rewrite (parse_tables rs Hwf Hids). cbn [mfg_data service_data].
  rewrite !foldl_put_entry_absent; [reflexivity | |].
  - apply Forall_forall. intros r [Hty Hin]%list_elem_of_filter.
    rewrite Forall_forall in Hs. apply (Hs r Hin Hty).
  - apply Forall_forall. intros r [Hty Hin]%list_elem_of_filter.
    rewrite Forall_forall in Hm. apply (Hm r Hin Hty).
Qed.

Lemma main_foreign_advertisement_witness :
  main_iteration (mk_world SENSOR_MAP_initial [])
    (mk_record "E6:99:94:26:C5:C3" (-70)%float
       (encode [mk_tlv x02 x01 [x06]; mk_tlv x04 xff [x4c; x00; x10]]) 100 100)
  = (mk_world SENSOR_MAP_initial [], Returns tt).
Proof.
  apply (main_foreign_advertisement (mk_world SENSOR_MAP_initial []) "E6:99:94:26:C5:C3"
           (-70)%float [mk_tlv x02 x01 [x06]; mk_tlv x04 xff [x4c; x00; x10]] 100 100).
  - repeat constructor.
  - repeat (constructor;
            [unfold has_identifier; cbn; intros [H | H]; first [discriminate H | lia] |]).
    constructor.
  - repeat (constructor; [cbn; intros H; first [discriminate H | vm_compute; discriminate] |]).
    constructor.
  - repeat (constructor; [cbn; intros H; first [discriminate H | vm_compute; discriminate] |]).
    constructor.
Defined.

(** X19: an advertisement of complete records with one record of type
    [0xFF], for the Ruuvi identifier and with a payload the decoder turns
    into a dictionary, and no record of type [0x16], is handed on: the
    aggregator is called once, with the decoded metrics and the rssi
    under the key [rssi], and the pass ends normally. *)
Theorem main_ruuvi_advertisement (w : world) (addr : string) (rssi : float)
    (rs : list tlv) (lm : byte) (payload : list byte) (d : pydict pyval) (t1 t2 : Q) :
  Forall tlv_wf rs ->
  filter (fun r => tlv_type r = xff) rs = [mk_tlv lm xff (x99 :: x04 :: payload)] ->
  filter (fun r => tlv_type r = x16) rs = [] ->
  parse_ruuvi_mfg_data payload = Returns (Some d) ->
  main_iteration w (mk_record addr rssi (encode rs) t1 t2)
  = (mk_world
       (update_sensor_data (SENSOR_MAP w) addr (dict_set "rssi" (PyFloat rssi) d) t1).1
       (sent w ++ (update_sensor_data (SENSOR_MAP w) addr
                     (dict_set "rssi" (PyFloat rssi) d) t1).2),
     Returns tt).
Proof.
  intros Hwf Hm Hs Hdec.
  assert (Hids : Forall has_identifier rs).
  { apply Forall_forall. intros r Hin [Hff | H16].
    - assert (Hr : r ∈ filter (fun r => tlv_type r = xff) rs)
        by (apply list_elem_of_filter; split; assumption).
      rewrite Hm in Hr. apply list_elem_of_singleton in Hr. subst r. cbn. lia.
    - assert (Hr : r ∈ filter (fun r => tlv_type r = x16) rs)
        by (apply list_elem_of_filter; split; assumption).
      rewrite Hs in Hr. apply elem_of_nil in Hr. contradiction. }
  unfold main_iteration, main_body. cbn [rec_data rec_address rec_rssi rec_now_ruuvi rec_now_mijia].
  rewrite (parse_tables rs Hwf Hids), Hm, Hs. cbn [mfg_data service_data foldl].
  unfold put_entry. cbn [tlv_payload take drop].
  change (uint Little [x99; x04]) with RUUVI_MFG_ID.
  rewrite lookup_insert_eq, lookup_empty. cbn [feed].
  change (drop 0 payload) with payload. rewrite Hdec. cbn [bind set_rssi].
  destruct (update_sensor_data (SENSOR_MAP w) addr (dict_set "rssi" (PyFloat rssi) d) t1).
  reflexivity.
Qed.

Lemma main_ruuvi_advertisement_witness :
  main_iteration (mk_world SENSOR_MAP_initial [])
    (mk_record "E6:99:94:26:C5:C3" (-70)%float
       (encode [mk_tlv x02 x01 [x06]; mk_tlv x04 xff [x99; x04; x03]]) 5 5)
  = (mk_world
       (update_sensor_data SENSOR_MAP_initial "E6:99:94:26:C5:C3"
          (dict_set "rssi" (PyFloat (-70)) []) 5).1
       ([] ++ (update_sensor_data SENSOR_MAP_initial "E6:99:94:26:C5:C3"
                 (dict_set "rssi" (PyFloat (-70)) []) 5).2),
     Returns tt).
Proof.
  apply (main_ruuvi_advertisement (mk_world SENSOR_MAP_initial []) "E6:99:94:26:C5:C3"
           (-70)%float [mk_tlv x02 x01 [x06]; mk_tlv x04 xff [x99; x04; x03]]
           x04 [x03] [] 5 5).
  - repeat constructor.
  - reflexivity.
  - reflexivity.
  - reflexivity.
Defined.

(** ** Reading a line *)

Lemma unhexlify_pair (b : byte) (s : string) :
  unhexlify (String (hex_digit (Byte.to_N b / 16))
               (String (hex_digit (Byte.to_N b mod 16)) s))
  = (do rest <- unhexlify s ;; Returns (b :: rest)).
Proof. destruct b; reflexivity. Qed.

(** X20: [binascii.unhexlify] undoes the hexadecimal text of a buffer:
    the text of two lower-case digits per byte decodes to the bytes it
    was made of. *)
Theorem unhexlify_hexlify (bs : list byte) :
  unhexlify (hexlify bs) = Returns bs.
Proof.
  induction bs as [| b bs IH]; [reflexivity |].
  cbn [hexlify]. rewrite unhexlify_pair, IH. reflexivity.
Qed.

Lemma unhexlify_outcomes_bounded (n : nat) :
  forall s : string,
    (String.length s <= n)%nat ->
    (exists bs, unhexlify s = Returns bs /\ String.length s = (2 * length bs)%nat)
    \/ unhexlify s = Raises BinasciiError.
Proof.
  induction n as [| n IH]; intros s Hlen.
  - destruct s; [| cbn in Hlen; lia]. left. exists []. split; reflexivity.
  - destruct s as [| hi [| lo s]].
    + left. exists []. split; reflexivity.
    + right. reflexivity.
    + cbn [unhexlify].
      destruct (hex_value hi) as [h |]; [| right; reflexivity].
      destruct (hex_value lo) as [l |]; [| right; reflexivity].
      destruct (IH s ltac:(cbn in Hlen; lia)) as [(bs & -> & Hs) | ->].
      * left. eexists. split; [reflexivity |]. cbn. lia.
      * right. reflexivity.
Qed.

(** X21: [binascii.unhexlify] returns one byte per two characters or
    raises [binascii.Error], nothing else; a text of odd length raises. *)
Theorem unhexlify_outcomes (s : string) :
  ((exists bs, unhexlify s = Returns bs /\ String.length s = (2 * length bs)%nat)
   \/ unhexlify s = Raises BinasciiError)
  /\ (Nat.odd (String.length s) = true -> unhexlify s = Raises BinasciiError).
Proof.
  pose proof (unhexlify_outcomes_bounded (String.length s) s (Nat.le_refl _)) as Hout.
  split; [exact Hout |].
  intros Hodd. destruct Hout as [(bs & _ & Hlen) | Hraise]; [| exact Hraise].
  rewrite Hlen, Nat.odd_mul in Hodd. discriminate Hodd.
Qed.

Lemma unhexlify_outcomes_witness : unhexlify "0ff" = Raises BinasciiError.
Proof.
  apply (proj2 (unhexlify_outcomes "0ff")). reflexivity.
Defined.

(** The record of a line is made, or one of the exceptions that [main]
    catches is raised. *)
Lemma line_record_outcomes (py_float : string -> option float) (line : string) (t1 t2 : Q) :
  (exists r, line_record py_float line t1 t2 = Returns r)
  \/ (exists e, line_record py_float line t1 t2 = Raises e /\ main_catches e = true).
Proof.
  unfold line_record, list_item, float_of_text.
  destruct (split "," (rstrip line) !! 0%nat); cbn [bind];
    [| right; eexists; split; reflexivity].
  destruct (split "," (rstrip line) !! 2%nat) as [text |]; cbn [bind];
    [| right; eexists; split; reflexivity].
  destruct (py_float text); cbn [bind]; [| right; eexists; split; reflexivity].
  destruct (split "," (rstrip line) !! 5%nat) as [adv |]; cbn [bind];
    [| right; eexists; split; reflexivity].
  destruct (proj1 (unhexlify_outcomes adv)) as [(bs & -> & _) | ->]; cbn [bind].
  - left. eexists. reflexivity.
  - right. eexists. split; reflexivity.
Qed.

(** X22: a line from which no record can be made is skipped: whatever
    [rstrip], [split], the two indexings, [float] and [unhexlify] raise
    has a handler, and the pass ends normally with nothing changed. In
    particular a line with fewer than six fields, such as the empty line
    of a read that timed out, is skipped. *)
Theorem main_line_skips (py_float : string -> option float) (w : world) (line : string)
    (t1 t2 : Q) :
  (forall e, line_record py_float line t1 t2 = Raises e ->
             main_line py_float w line t1 t2 = (w, Returns tt))
  /\ ((length (split "," (rstrip line)) < 6)%nat ->
      main_line py_float w line t1 t2 = (w, Returns tt)).
Proof.
  assert (Hskip : forall e, line_record py_float line t1 t2 = Raises e ->
                            main_line py_float w line t1 t2 = (w, Returns tt)).
  { intros e He. unfold main_line, main_line_body. rewrite He.
    destruct (line_record_outcomes py_float line t1 t2) as [[r Hr] | (e' & He' & Hc)];
      [congruence |].
    assert (e' = e) by congruence. subst e'. rewrite Hc. reflexivity. }
  split; [exact Hskip |].
  intros Hshort.
  destruct (line_record_outcomes py_float line t1 t2) as [[r Hr] | (e & He & _)];
    [| apply (Hskip e He)].
  exfalso. unfold line_record, list_item in Hr.
  assert (Hnone : split "," (rstrip line) !! 5%nat = None)
    by (apply lookup_ge_None; lia).
  rewrite Hnone in Hr.
  destruct (split "," (rstrip line) !! 0%nat); cbn [bind] in Hr; [| discriminate].
  destruct (split "," (rstrip line) !! 2%nat) as [text |]; cbn [bind] in Hr; [| discriminate].
  destruct (float_of_text py_float text); cbn [bind] in Hr; discriminate.
Qed.

Lemma main_line_skips_witness :
  main_line (fun _ => None) (mk_world SENSOR_MAP_initial []) "" 0 0
  = (mk_world SENSOR_MAP_initial [], Returns tt).
Proof.
  apply (proj2 (main_line_skips (fun _ => None) (mk_world SENSOR_MAP_initial []) "" 0 0)).
  cbn. lia.
Defined.

Lemma rstrip_spaces (ws : string) : all_chars is_space ws = true -> rstrip ws = EmptyString.
Proof.
  induction ws as [| c ws IH]; [reflexivity |].
  cbn [all_chars rstrip]. intros [Hc Hws]%andb_true_iff.
  rewrite (IH Hws), Hc. reflexivity.
Qed.

(** Trailing whitespace after a run of characters that are no
    whitespace is all that [rstrip] removes. *)
Lemma rstrip_cons (c : ascii) (s : string) :
  rstrip (String c s)
  = match rstrip s with
    | EmptyString => if is_space c then EmptyString else String c EmptyString
    | t => String c t
    end.
Proof. reflexivity. Qed.

Lemma rstrip_after (u ws : string) :
  u <> EmptyString ->
  all_chars (fun c => negb (is_space c)) u = true ->
  all_chars is_space ws = true ->
  rstrip (u +:+ ws) = u.
Proof.
  induction u as [| c u IH]; intros Hne Hu Hws; [contradiction |].
  cbn [all_chars] in Hu. apply andb_true_iff in Hu as [Hc Hu].
  change (String c u +:+ ws) with (String c (u +:+ ws)). rewrite rstrip_cons.
  destruct u as [| c' u].
  - change (EmptyString +:+ ws) with ws. rewrite (rstrip_spaces ws Hws).
    apply negb_true_iff in Hc. rewrite Hc. reflexivity.
  - rewrite (IH ltac:(discriminate) Hu Hws). reflexivity.
Qed.

Lemma rstrip_prefix (s t : string) :
  rstrip t <> EmptyString -> rstrip (s +:+ t) = s +:+ rstrip t.
Proof.
  intros Hne. induction s as [| c s IH]; [reflexivity |].
  change (String c s +:+ t) with (String c (s +:+ t)). rewrite rstrip_cons, IH.
  change (String c s +:+ rstrip t) with (String c (s +:+ rstrip t)).
  destruct (s +:+ rstrip t) eqn:Happ; [| reflexivity].
  destruct s; [cbn in Happ; contradiction | discriminate].
Qed.

Lemma split_no_comma (f : string) : no_comma f = true -> split "," f = [f].
Proof.
  induction f as [| c f IH]; [reflexivity |].
  unfold no_comma. cbn [all_chars split]. intros [Hc Hf]%andb_true_iff.
  apply negb_true_iff in Hc. rewrite Hc, (IH Hf). reflexivity.
Qed.

Lemma split_field (f rest : string) :
  no_comma f = true ->
  split "," (f +:+ String "," rest) = f :: split "," rest.
Proof.
  induction f as [| c f IH]; [reflexivity |].
  unfold no_comma. cbn [all_chars]. intros [Hc Hf]%andb_true_iff.
  apply negb_true_iff in Hc.
  change (split "," (String c f +:+ String "," rest))
    with (if Ascii.eqb c "," then EmptyString :: split "," (f +:+ String "," rest)
          else match split "," (f +:+ String "," rest) with
               | [] => [String c EmptyString]
               | item :: items => String c item :: items
               end).
  rewrite Hc, (IH Hf). reflexivity.
Qed.

Lemma hexlify_chars (bs : list byte) :
  no_comma (hexlify bs) = true
  /\ all_chars (fun c => negb (is_space c)) (hexlify bs) = true.
Proof.
  induction bs as [| b bs [IHc IHs]]; [split; reflexivity |].
  unfold no_comma in *. cbn [hexlify all_chars]. rewrite IHc, IHs.
  destruct b; split; reflexivity.
Qed.

(** X23: a line as the scanner sends it is read back as its record: six
    comma-separated fields, the third a text that [float] accepts, the
    sixth the hexadecimal text of the advertisement, and any trailing
    whitespace such as the line ending. The pass on the line is the pass
    on that record. *)
Theorem main_line_well_formed (py_float : string -> option float) (w : world)
    (f0 f1 f2 f3 f4 ws : string) (data : list byte) (rssi : float) (t1 t2 : Q) :
  no_comma f0 = true -> no_comma f1 = true -> no_comma f2 = true ->
  no_comma f3 = true -> no_comma f4 = true ->
  all_chars is_space ws = true ->
  py_float f2 = Some rssi ->
  line_record py_float
    (f0 +:+ String "," (f1 +:+ String "," (f2 +:+ String "," (f3 +:+ String ","
       (f4 +:+ String "," (hexlify data +:+ ws)))))) t1 t2
  = Returns (mk_record f0 rssi data t1 t2)
  /\ main_line py_float w
       (f0 +:+ String "," (f1 +:+ String "," (f2 +:+ String "," (f3 +:+ String ","
          (f4 +:+ String "," (hexlify data +:+ ws)))))) t1 t2
     = main_iteration w (mk_record f0 rssi data t1 t2).
Proof.
  intros H0 H1 H2 H3 H4 Hws Hfloat.
  destruct (hexlify_chars data) as [Hhc Hhs].
  assert (Hlast : rstrip (String "," (hexlify data +:+ ws)) = String "," (hexlify data)).
  { apply (rstrip_after (String "," (hexlify data)) ws); [discriminate | | exact Hws].
    cbn [all_chars]. rewrite Hhs. reflexivity. }
  assert (Hstrip :
    rstrip (f0 +:+ String "," (f1 +:+ String "," (f2 +:+ String "," (f3 +:+ String ","
              (f4 +:+ String "," (hexlify data +:+ ws))))))
    = f0 +:+ String "," (f1 +:+ String "," (f2 +:+ String "," (f3 +:+ String ","
              (f4 +:+ String "," (hexlify data)))))).
  { assert (Hr4 : rstrip (f4 +:+ String "," (hexlify data +:+ ws))
                  = f4 +:+ String "," (hexlify data))
      by (rewrite rstrip_prefix; rewrite Hlast; [reflexivity | discriminate]).
    assert (Hn4 : rstrip (String "," (f4 +:+ String "," (hexlify data +:+ ws)))
                  = String "," (f4 +:+ String "," (hexlify data))).
    { rewrite rstrip_cons, Hr4. destruct f4; reflexivity. }
    assert (Hn3 : rstrip (String "," (f3 +:+ String "," (f4 +:+ String "," (hexlify data +:+ ws))))
                  = String "," (f3 +:+ String "," (f4 +:+ String "," (hexlify data)))).
    { rewrite rstrip_cons, rstrip_prefix; rewrite Hn4; [| discriminate].
      destruct f3; reflexivity. }
    assert (Hn2 : rstrip (String "," (f2 +:+ String "," (f3 +:+ String ","
                            (f4 +:+ String "," (hexlify data +:+ ws)))))
                  = String "," (f2 +:+ String "," (f3 +:+ String ","
                            (f4 +:+ String "," (hexlify data))))).
    { rewrite rstrip_cons, rstrip_prefix; rewrite Hn3; [| discriminate].
      destruct f2; reflexivity. }
    assert (Hn1 : rstrip (String "," (f1 +:+ String "," (f2 +:+ String "," (f3 +:+ String ","
                            (f4 +:+ String "," (hexlify data +:+ ws))))))
                  = String "," (f1 +:+ String "," (f2 +:+ String "," (f3 +:+ String ","
                            (f4 +:+ String "," (hexlify data)))))).
    { rewrite rstrip_cons, rstrip_prefix; rewrite Hn2; [| discriminate].
      destruct f1; reflexivity. }
    rewrite rstrip_prefix; rewrite Hn1; [reflexivity | discriminate]. }
  assert (Hrec :
    line_record py_float
      (f0 +:+ String "," (f1 +:+ String "," (f2 +:+ String "," (f3 +:+ String ","
         (f4 +:+ String "," (hexlify data +:+ ws)))))) t1 t2
    = Returns (mk_record f0 rssi data t1 t2)).
  { unfold line_record. rewrite Hstrip.
    rewrite (split_field f0 _ H0), (split_field f1 _ H1), (split_field f2 _ H2),
      (split_field f3 _ H3), (split_field f4 _ H4), (split_no_comma _ Hhc).
    unfold list_item, float_of_text. cbn [lookup list_lookup bind].
    rewrite Hfloat. cbn [bind]. rewrite unhexlify_hexlify. reflexivity. }
  split; [exact Hrec |].
  unfold main_line, main_line_body, main_iteration. rewrite Hrec. reflexivity.
Qed.

Lemma main_line_well_formed_witness :
  main_line (fun text => if String.eqb text "-70" then Some (-70)%float else None)
    (mk_world SENSOR_MAP_initial [])
    ("E6:99:94:26:C5:C3" +:+ String "," ("0" +:+ String "," ("-70" +:+ String ","
       ("0" +:+ String "," ("0" +:+ String ","
          (hexlify [x02; x01; x06; x04; xff; x99; x04; x03]
             +:+ String "013" (String "010" EmptyString))))))) 5 5
  = main_iteration (mk_world SENSOR_MAP_initial [])
      (mk_record "E6:99:94:26:C5:C3" (-70)%float
         [x02; x01; x06; x04; xff; x99; x04; x03] 5 5).
Proof.
  apply (proj2 (main_line_well_formed
                  (fun text => if String.eqb text "-70" then Some (-70)%float else None)
                  (mk_world SENSOR_MAP_initial [])
                  "E6:99:94:26:C5:C3" "0" "-70" "0" "0"
                  (String "013" (String "010" EmptyString))
                  [x02; x01; x06; x04; xff; x99; x04; x03] (-70)%float 5 5
                  eq_refl eq_refl eq_refl eq_refl eq_refl eq_refl eq_refl)).
Defined.

(** X24: an advertisement of complete records with one record of type
    [0x16], for the Mijia identifier and with a payload the decoder turns
    into a dictionary, and no record of type [0xFF], is handed on: the
    aggregator is called once, at the second clock reading, with the
    decoded metrics and the rssi, and the pass ends normally. *)
Theorem main_mijia_advertisement (w : world) (addr : string) (rssi : float)
    (rs : list tlv) (ls : byte) (payload : list byte) (d : pydict pyval) (t1 t2 : Q) :
  Forall tlv_wf rs ->
  filter (fun r => tlv_type r = xff) rs = [] ->
  filter (fun r => tlv_type r = x16) rs = [mk_tlv ls x16 (x95 :: xfe :: payload)] ->
  parse_mijia_sensor_data payload = Returns (Some d) ->
  main_iteration w (mk_record addr rssi (encode rs) t1 t2)
  = (mk_world
       (update_sensor_data (SENSOR_MAP w) addr (dict_set "rssi" (PyFloat rssi) d) t2).1
       (sent w ++ (update_sensor_data (SENSOR_MAP w) addr
                     (dict_set "rssi" (PyFloat rssi) d) t2).2),
     Returns tt).
Proof.
  intros Hwf Hm Hs Hdec.
  assert (Hids : Forall has_identifier rs).
  { apply Forall_forall. intros r Hin [Hff | H16].
    - assert (Hr : r ∈ filter (fun r => tlv_type r = xff) rs)
        by (apply list_elem_of_filter; split; assumption).
      rewrite Hm in Hr. apply elem_of_nil in Hr. contradiction.
    - assert (Hr : r ∈ filter (fun r => tlv_type r = x16) rs)
        by (apply list_elem_of_filter; split; assumption).
      rewrite Hs in Hr. apply list_elem_of_singleton in Hr. subst r. cbn. lia. }
  unfold main_iteration, main_body. cbn [rec_data rec_address rec_rssi rec_now_ruuvi rec_now_mijia].
  rewrite (parse_tables rs Hwf Hids), Hm, Hs. cbn [mfg_data service_data foldl].
  unfold put_entry. cbn [tlv_payload take drop].
  change (uint Little [x95; xfe]) with MIJIA_SVC_ID.
  rewrite lookup_insert_eq, lookup_empty. cbn [feed].
  change (drop 0 payload) with payload. rewrite Hdec. cbn [bind set_rssi].
  destruct (update_sensor_data (SENSOR_MAP w) addr (dict_set "rssi" (PyFloat rssi) d) t2).
  reflexivity.
Qed.

Lemma main_mijia_advertisement_witness :
  main_iteration (mk_world SENSOR_MAP_initial [])
    (mk_record "4C:65:A8:D4:03:E3" (-70)%float
       (encode [mk_tlv x02 x01 [x06]; mk_tlv x15 x16 (x95 :: xfe :: mijia_sample)]) 5 6)
  = (mk_world
       (update_sensor_data SENSOR_MAP_initial "4C:65:A8:D4:03:E3"
          (dict_set "rssi" (PyFloat (-70))
             [("temperature"%string, PyFloat 20.1); ("humidity"%string, PyFloat 45.3)]) 6).1
       ([] ++ (update_sensor_data SENSOR_MAP_initial "4C:65:A8:D4:03:E3"
                 (dict_set "rssi" (PyFloat (-70))
                    [("temperature"%string, PyFloat 20.1); ("humidity"%string, PyFloat 45.3)])
                 6).2),
     Returns tt).
Proof.
  apply (main_mijia_advertisement (mk_world SENSOR_MAP_initial []) "4C:65:A8:D4:03:E3"
           (-70)%float [mk_tlv x02 x01 [x06]; mk_tlv x15 x16 (x95 :: xfe :: mijia_sample)]
           x15 mijia_sample
           [("temperature"%string, PyFloat 20.1); ("humidity"%string, PyFloat 45.3)] 5 6).
  - repeat constructor.
  - reflexivity.
  - reflexivity.
  - vm_compute. reflexivity.
Defined.
